(** * Job-market dashboards: filter engine and aggregation layer

    A shallow embedding of the decision logic of the two Streamlit scripts
    [app.py] (USA dashboard) and [app_comparison.py] (USA vs India), and the
    properties the specification states about it.

    Modelling conventions.
    - A DataFrame is the list of its rows, in index order; a boolean-mask
      selection [df[mask]] is [List.filter].
    - Salary columns are float64 columns: they are IEEE-754 binary64 values
      ([PrimFloat.float]), NaN included, with pandas' comparisons and
      arithmetic being the binary64 ones.
    - A missing text cell (NaN in an object column) is [None].
    - Row counts and flag counts are exact integers ([nat]). The percentages
      derived from them are float64 values, computed as the code computes
      them: each count is converted to binary64 and the quotient, the product
      by 100 and the sum of two percentages are the binary64 operations.
    - Sets of column names and dictionary keys are iterated in an order
      Python does not fix; such an order is an argument of the functions that
      depend on it. *)

From Stdlib Require Import ZArith Floats Lia List Permutation Sorted Ascii.
From Stdlib Require Uint63.
From stdpp Require Import base option list gmap strings pretty.

Local Open Scope string_scope.
Local Open Scope list_scope.

(** ** pandas primitives shared by the two scripts *)

Module Pandas.

(** [Series.between(left, right)], inclusive on both sides: the conjunction of
    [left <= x] and [x <= right]; false on NaN. *)
Definition between (left right x : float) : bool :=
  ((left <=? x) && (x <=? right))%float.

(** [series == value] on a text column: false on a missing cell. *)
Definition cell_eqb (c : option string) (v : string) : bool :=
  match c with
  | Some s => bool_decide (s = v)
  | None => false
  end.

(** [series.isin(values)]. *)
Definition isin (values : list string) (s : string) : bool :=
  bool_decide (s ∈ values).

(** [Series.dropna()] on a float column. *)
Definition dropna (l : list float) : list float :=
  List.filter (fun x => negb (is_nan x)) l.

Fixpoint insert_sorted (x : float) (l : list float) : list float :=
  match l with
  | [] => [x]
  | y :: l' => if (x <=? y)%float then x :: l else y :: insert_sorted x l'
  end.

Definition sort_values (l : list float) : list float :=
  fold_right insert_sorted [] l.

(** [Series.median()] (skipna): NaN cells are skipped; NaN when nothing is
    left; the middle value of the sorted values, or the mean of the two middle
    values when their number is even. *)
Definition median (l : list float) : float :=
  let v := sort_values (dropna l) in
  let n := length v in
  if (n =? 0)%nat then nan
  else if Nat.even n
       then ((nth (n / 2 - 1) v nan + nth (n / 2) v nan) / 2)%float
       else nth (n / 2) v nan.

(** [df[col].sum()] on a boolean flag column: the number of rows whose flag is
    set. *)
Definition flag_sum {A : Type} (flag : A -> bool) (df : list A) : nat :=
  fold_right (fun r acc => ((if flag r then 1 else 0) + acc)%nat) 0%nat df.

(** [Series.map(dict)]: a cell that is missing or not a key becomes missing. *)
Definition map_dict (m : gmap string string) (c : option string) : option string :=
  match c with
  | Some k => m !! k
  | None => None
  end.

(** [Series.fillna(other)], cell by cell. *)
Definition fillna (c other : option string) : option string :=
  match c with
  | Some v => Some v
  | None => other
  end.

End Pandas.

(** ** Python's fixed-point formatting *)

Module Python.

(** The integer nearest to [m * 2^e], ties to the even one. *)
Definition round_half_even (m : positive) (e : Z) : Z :=
  if (0 <=? e)%Z then (Z.pos m * 2 ^ e)%Z
  else
    let d := (2 ^ (- e))%Z in
    let q := (Z.pos m / d)%Z in
    let r := (Z.pos m mod d)%Z in
    match (2 * r ?= d)%Z with
    | Lt => q
    | Gt => (q + 1)%Z
    | Eq => if Z.even q then q else (q + 1)%Z
    end.

(** [format(x, '.0f')]: the correctly rounded decimal with no fractional
    digit; "nan" and "inf" for the special values. *)
Definition format_f0 (x : float) : string :=
  match Prim2SF x with
  | S754_nan => "nan"
  | S754_infinity s => if s then "-inf" else "inf"
  | S754_zero s => if s then "-0" else "0"
  | S754_finite s m e =>
      (if s then "-" else "") ++ pretty (Z.to_N (round_half_even m e))
  end.

(** [str.startswith]. *)
Definition startswith (s p : string) : bool := String.prefix p s.

Fixpoint drop_chars (n : nat) (s : string) : string :=
  match n, s with
  | O, _ => s
  | S n', String _ s' => drop_chars n' s'
  | S _, EmptyString => EmptyString
  end.

(** [str.replace(old, new)] for a non-empty [old]: the non-overlapping
    occurrences, left to right. [fuel] bounds the number of steps. *)
Fixpoint replace_fuel (fuel : nat) (old new s : string) : string :=
  match fuel with
  | O => s
  | S fuel' =>
      match s with
      | EmptyString => EmptyString
      | String c s' =>
          if String.prefix old s
          then new ++ replace_fuel fuel' old new (drop_chars (String.length old) s)
          else String c (replace_fuel fuel' old new s')
      end
  end.

Definition replace (s old new : string) : string :=
  replace_fuel (S (String.length s)) old new s.

Definition is_upper (c : ascii) : bool :=
  let n := nat_of_ascii c in ((65 <=? n) && (n <=? 90))%nat.

Definition is_lower (c : ascii) : bool :=
  let n := nat_of_ascii c in ((97 <=? n) && (n <=? 122))%nat.

Definition to_upper (c : ascii) : ascii :=
  if is_lower c then ascii_of_nat (nat_of_ascii c - 32) else c.

Definition to_lower (c : ascii) : ascii :=
  if is_upper c then ascii_of_nat (nat_of_ascii c + 32) else c.

(** [str.title()] on ASCII text, which the column names of the two tables
    are: a letter that follows a letter is lowered, any other letter is
    raised. The only cased characters of ASCII are the 52 letters; on text
    with other characters [str.title()] follows the Unicode case tables, which
    this function does not. *)
Fixpoint title_from (prev_cased : bool) (s : string) : string :=
  match s with
  | EmptyString => EmptyString
  | String c s' =>
      if is_upper c || is_lower c
      then String (if prev_cased then to_lower c else to_upper c) (title_from true s')
      else String c (title_from false s')
  end.

Definition title (s : string) : string := title_from false s.

(** A [dict] with string keys, as the list of its items in insertion order. *)
Fixpoint dict_set {V : Type} (k : string) (v : V) (d : list (string * V))
    : list (string * V) :=
  match d with
  | [] => [(k, v)]
  | (k', v') :: d' =>
      if bool_decide (k' = k) then (k, v) :: d' else (k', v') :: dict_set k v d'
  end.

Fixpoint dict_get {V : Type} (d : list (string * V)) (k : string) (default : V) : V :=
  match d with
  | [] => default
  | (k', v') :: d' => if bool_decide (k' = k) then v' else dict_get d' k default
  end.

(** [sorted(items, key=lambda x: x[1], reverse=True)]: decreasing in the
    value, items of equal value staying in their original order. *)
Fixpoint insert_desc {K V : Type} (leb : V -> V -> bool) (x : K * V)
    (l : list (K * V)) : list (K * V) :=
  match l with
  | [] => [x]
  | y :: l' => if leb (snd y) (snd x) then x :: l else y :: insert_desc leb x l'
  end.

Definition sorted_desc {K V : Type} (leb : V -> V -> bool) (items : list (K * V))
    : list (K * V) :=
  fold_right (insert_desc leb) [] items.

(** [col.replace('skill_', '').replace('_', ' ').title()]. *)
Definition skill_name (col : string) : string :=
  title (replace (replace col "skill_" "") "_" " ").

(** [str.isascii()]: every character is below 128. *)
Definition isascii (s : string) : bool :=
  forallb (fun c => (nat_of_ascii c <? 128)%nat)
          (Stdlib.Strings.String.list_ascii_of_string s).

End Python.

(** ** numpy's float64 arithmetic on counts *)

Module Numpy.

(** An int64 count as a float64, as numpy converts the operands of a true
    division: the nearest binary64 value, the count itself below [2^53].
    (A count is below [2^63].) *)
Definition float64 (z : Z) : float := of_uint63 (Uint63.of_Z z).

(** [numpy.rint]: the nearest integer, ties to the even one, with the sign
    of the argument; integers, zeros, infinities and NaN are left as they
    are. *)
Definition rint (x : float) : float :=
  match Prim2SF x with
  | S754_finite s m e =>
      if (e <? 0)%Z then
        let f := float64 (Python.round_half_even m e) in
        if s then (- f)%float else f
      else x
  | _ => x
  end.

(** [Series.round(1)], which is [ndarray.round(1)]: numpy multiplies the
    value by ten, rounds it to an integer with [rint] and divides by ten, each
    step in binary64, so the result can differ from the correctly rounded
    decimal. *)
Definition round1 (x : float) : float := (rint (x * 10) / 10)%float.

End Numpy.

(** ** Binary64 rounding

    The functions below restate, on integers, what [SFmul] computes when a
    canonical binary64 value is multiplied by the double that [1.2] denotes,
    [mc * 2^ec], and name the notions in which the bounds and the order of
    binary64 results are stated. *)

Module Binary64.

(** The non-negative integer [M] shifted right by [n >= 1] bits and rounded
    to nearest, ties to even. *)
Definition round_shift (M n : Z) : Z :=
  let q := (M / 2 ^ n)%Z in
  let r := (M mod 2 ^ n)%Z in
  let h := (2 ^ (n - 1))%Z in
  if ((h <? r) || ((h =? r) && Z.odd q))%Z then (q + 1)%Z else q.

(** Mantissa and exponent of [0x1.3333333333333p+0]. *)
Definition mc : positive := 5404319552844595%positive.
Definition ec : Z := (-52)%Z.
Definition c : spec_float := S754_finite false mc ec.

(** Mantissa and exponent of the rounded product of the canonical value
    [mx * 2^ex] by [mc * 2^ec]. *)
Definition mul_c (mx : positive) (ex : Z) : Z * Z :=
  let M := (Z.pos mx * Z.pos mc)%Z in
  if (M <? 2 ^ 105)%Z then
    let m := round_shift M 52 in
    if (m <? 2 ^ 53)%Z then (m, ex) else ((2 ^ 52)%Z, (ex + 1)%Z)
  else (round_shift M 53, (ex + 1)%Z).

(** The last step of [binary_round_aux]: overflow becomes an infinity. *)
Definition pack (s : bool) (me : Z * Z) : spec_float :=
  match fst me with
  | Z0 => S754_zero s
  | Z.pos m =>
      if (snd me <=? emax - prec)%Z then S754_finite s m (snd me)
      else S754_infinity s
  | Z.neg _ => S754_nan
  end.

(** The values that are neither NaN nor infinite. *)
Definition SFfinite (x : spec_float) : bool :=
  match x with
  | S754_zero _ | S754_finite _ _ _ => true
  | _ => false
  end.

(** [x] is a zero, a finite value or an infinity, of sign [s]. *)
Definition SFsigned (s : bool) (x : spec_float) : bool :=
  match x with
  | S754_zero s' | S754_infinity s' | S754_finite s' _ _ => Bool.eqb s s'
  | S754_nan => false
  end.

(** The order of two positive canonical (mantissa, exponent) pairs. *)
Definition lex_le (a b : Z * Z) : Prop :=
  (snd a < snd b)%Z \/ (snd a = snd b /\ (fst a <= fst b)%Z).

(** The least integer not below a value located at [m]: [m] itself when the
    location is exact, [m + 1] when the value lies strictly above [m]. *)
Definition up (m : Z) (l : location) : Z :=
  match l with loc_Exact => m | loc_Inexact _ => (m + 1)%Z end.

(** A binary64 value between zero and the positive value [mb * 2^eb]. *)
Definition below (x : spec_float) (mb : positive) (eb : Z) : Prop :=
  (exists s, x = S754_zero s) \/
  exists m e, x = S754_finite false m e /\ bounded prec emax m e = true /\
              lex_le (Z.pos m, e) (Z.pos mb, eb).

(** The place of a value other than NaN in the order of binary64 values:
    its class (negative infinity, negative, zero, positive, positive
    infinity), then exponent and mantissa. *)
Definition rank (x : spec_float) : Z * (Z * Z) :=
  match x with
  | S754_zero _ => (0, (0, 0))%Z
  | S754_infinity s => if s then (-2, (0, 0))%Z else (2, (0, 0))%Z
  | S754_nan => (3, (0, 0))%Z
  | S754_finite s m e => if s then (-1, (- e, - Z.pos m))%Z else (1, (e, Z.pos m))%Z
  end.

Definition rank_le (a b : Z * (Z * Z)) : Prop :=
  (fst a < fst b)%Z \/
  (fst a = fst b /\
   ((fst (snd a) < fst (snd b))%Z \/
    (fst (snd a) = fst (snd b) /\ (snd (snd a) <= snd (snd b))%Z))).

End Binary64.

(** ** app.py: the USA dashboard *)

Module App.

Record Row := mkRow {
  seniority : string;
  state : option string;
  avg_salary_k : float;
  skill : string -> bool
}.

(** The sidebar selections: the salary slider's pair, the seniority select box
    and the state select box. The slider's integer end points are held as the
    float64 values pandas compares the salary column with. *)
Record Selection := mkSelection {
  salary_range : float * float;
  selected_seniority : string;
  selected_state : string
}.

(** Lines 19-33: the dictionary literal of [load_data]. *)
Definition state_mapping : gmap string string :=
  list_to_map [
    ("AL", "Alabama"); ("AK", "Alaska"); ("AZ", "Arizona"); ("AR", "Arkansas");
    ("CA", "California"); ("CO", "Colorado"); ("CT", "Connecticut"); ("DE", "Delaware");
    ("FL", "Florida"); ("GA", "Georgia"); ("HI", "Hawaii"); ("ID", "Idaho");
    ("IL", "Illinois"); ("IN", "Indiana"); ("IA", "Iowa"); ("KS", "Kansas");
    ("KY", "Kentucky"); ("LA", "Louisiana"); ("ME", "Maine"); ("MD", "Maryland");
    ("MA", "Massachusetts"); ("MI", "Michigan"); ("MN", "Minnesota"); ("MS", "Mississippi");
    ("MO", "Missouri"); ("MT", "Montana"); ("NE", "Nebraska"); ("NV", "Nevada");
    ("NH", "New Hampshire"); ("NJ", "New Jersey"); ("NM", "New Mexico"); ("NY", "New York");
    ("NC", "North Carolina"); ("ND", "North Dakota"); ("OH", "Ohio"); ("OK", "Oklahoma");
    ("OR", "Oregon"); ("PA", "Pennsylvania"); ("RI", "Rhode Island"); ("SC", "South Carolina");
    ("SD", "South Dakota"); ("TN", "Tennessee"); ("TX", "Texas"); ("UT", "Utah");
    ("VT", "Vermont"); ("VA", "Virginia"); ("WA", "Washington"); ("WV", "West Virginia");
    ("WI", "Wisconsin"); ("WY", "Wyoming"); ("DC", "Washington DC")
  ].

(** Lines 15-38, after [read_csv]:
    [df['state'] = df['state'].map(state_mapping).fillna(df['state'])]. *)
Definition load_data (csv : list Row) : list Row :=
  map (fun r =>
         {| seniority := seniority r;
            state := Pandas.fillna (Pandas.map_dict state_mapping (state r)) (state r);
            avg_salary_k := avg_salary_k r;
            skill := skill r |}) csv.

(** Lines 69-76. *)
Definition filtered_df (df : list Row) (sel : Selection) : list Row :=
  let filtered_df :=
    List.filter
      (fun r => Pandas.between (fst (salary_range sel)) (snd (salary_range sel))
                               (avg_salary_k r)) df in
  let filtered_df :=
    if bool_decide (selected_seniority sel ≠ "All")
    then List.filter (fun r => bool_decide (seniority r = selected_seniority sel))
                     filtered_df
    else filtered_df in
  let filtered_df :=
    if bool_decide (selected_state sel ≠ "All")
    then List.filter (fun r => Pandas.cell_eqb (state r) (selected_state sel))
                     filtered_df
    else filtered_df in
  filtered_df.

(** The contract of the filter engine in the specification's words: the
    conjunction of the active predicates, as a predicate on one row. *)
Definition satisfies (sel : Selection) (r : Row) : Prop :=
  ((fst (salary_range sel) <=? avg_salary_k r)%float = true ∧
   (avg_salary_k r <=? snd (salary_range sel))%float = true) ∧
  (selected_seniority sel ≠ "All" → seniority r = selected_seniority sel) ∧
  (selected_state sel ≠ "All" → state r = Some (selected_state sel)).

Definition satisfiesb (sel : Selection) (r : Row) : bool :=
  Pandas.between (fst (salary_range sel)) (snd (salary_range sel)) (avg_salary_k r)
  && (bool_decide (selected_seniority sel = "All")
      || bool_decide (seniority r = selected_seniority sel))
  && (bool_decide (selected_state sel = "All")
      || Pandas.cell_eqb (state r) (selected_state sel)).

(** Line 87. *)
Definition median_salary (filtered_df : list Row) : float :=
  Pandas.median (map avg_salary_k filtered_df).

(** Line 88: the text handed to [st.metric("Median Salary", ...)]. *)
Definition median_salary_metric (filtered_df : list Row) : string :=
  "$" ++ Python.format_f0 (median_salary filtered_df) ++ "K".

(** Lines 306-309: the "Salary by Level" metric of one level, shown only when
    the view has rows of that level: the median text and the job count. *)
Definition level_metric (filtered_df : list Row) (level : string)
    : option (string * nat) :=
  let level_data :=
    map avg_salary_k
        (List.filter (fun r => bool_decide (seniority r = level)) filtered_df) in
  if (0 <? length level_data)%nat
  then Some (("$" ++ Python.format_f0 (Pandas.median level_data) ++ "K")%string,
             length level_data)
  else None.

(** Lines 336-337. *)
Definition junior_sal (filtered_df : list Row) : float :=
  Pandas.median
    (map avg_salary_k
         (List.filter (fun r => bool_decide (seniority r = "Junior")) filtered_df)).

Definition senior_sal (filtered_df : list Row) : float :=
  Pandas.median
    (map avg_salary_k
         (List.filter (fun r => bool_decide (seniority r = "Senior")) filtered_df)).

(** Line 339: the guard of the "Junior -> Senior Growth" metric,
    [pd.notna(junior_sal) and pd.notna(senior_sal) and junior_sal > 0]. *)
Definition growth_shown (filtered_df : list Row) : bool :=
  negb (is_nan (junior_sal filtered_df))
  && negb (is_nan (senior_sal filtered_df))
  && (0 <? junior_sal filtered_df)%float.

(** Lines 343-348: the two salaries of the "Career Progression" text, written
    whether or not the guard of line 339 held. *)
Definition career_progression (filtered_df : list Row) : string * string :=
  (("$" ++ Python.format_f0 (junior_sal filtered_df) ++ "K")%string,
   ("$" ++ Python.format_f0 (senior_sal filtered_df) ++ "K")%string).

(** Line 171. *)
Definition skill_cols (columns : list string) : list string :=
  List.filter (fun col => Python.startswith col "skill_") columns.

(** Lines 172-177. *)
Definition skill_counts (columns : list string) (filtered_df : list Row)
    : list (string * nat) :=
  fold_left
    (fun skill_counts col =>
       let count := Pandas.flag_sum (fun r => skill r col) filtered_df in
       if (0 <? count)%nat
       then Python.dict_set (Python.skill_name col) count skill_counts
       else skill_counts)
    (skill_cols columns) [].

(** Line 179. *)
Definition top_skills (columns : list string) (filtered_df : list Row)
    : list (string * nat) :=
  firstn 15 (Python.sorted_desc Nat.leb (skill_counts columns filtered_df)).

(** Line 185 before the rounding, and line 315: [count / len(filtered_df) * 100]
    in float64. *)
Definition percentage (count : nat) (filtered_df : list Row) : float :=
  (Numpy.float64 (Z.of_nat count) / Numpy.float64 (Z.of_nat (length filtered_df))
   * 100)%float.

(** Lines 181-185: the rows (Skill, Count, Percentage) of [skills_df]. *)
Definition skills_df (columns : list string) (filtered_df : list Row)
    : list (string * nat * float) :=
  map (fun '(skill, count) =>
         (skill, count, Numpy.round1 (percentage count filtered_df)))
      (top_skills columns filtered_df).

(** One script run: Streamlit re-executes the script from the top on every
    widget change; the cached table is read, never written, and the view is
    recomputed from it. *)
Record Session := mkSession {
  table : list Row;
  view : list Row
}.

Definition rerun (s : Session) (sel : Selection) : Session :=
  {| table := table s; view := filtered_df (table s) sel |}.

Definition with_seniority (sel : Selection) (v : string) : Selection :=
  {| salary_range := salary_range sel;
     selected_seniority := v;
     selected_state := selected_state sel |}.

End App.

(** ** app_comparison.py: USA versus India *)

Module Comparison.

(** A row of either table; [avg_salary] is the column [avg_salary_usd] of the
    USA table and [avg_salary_lpa] of the India table. *)
Record Row := mkRow {
  job_category : string;
  seniority : string;
  avg_salary : float;
  skill : string -> bool
}.

(** Lines 67-71. *)
Definition filter_data (df : list Row) (categories : list string)
    (seniority_option : string) : list Row :=
  let filtered :=
    List.filter (fun r => Pandas.isin categories (job_category r)) df in
  let filtered :=
    if bool_decide (seniority_option ≠ "All")
    then List.filter (fun r => bool_decide (seniority r = seniority_option)) filtered
    else filtered in
  filtered.

(** Line 87 (and 115, 151, 476). *)
Definition median_sal (df_usa_filtered : list Row) : float :=
  Pandas.median (map avg_salary df_usa_filtered).

(** Line 88: the text handed to [st.metric("Median Salary (USA)", ...)]. *)
Definition median_sal_metric (df_usa_filtered : list Row) : string :=
  "$" ++ Python.format_f0 (median_sal df_usa_filtered) ++ "K".

(** Lines 122 and 178: India LPA to thousands of USD. *)
Definition india_sal_usd (india_sal : float) : float :=
  (india_sal * 0x1.3333333333333p+0)%float.   (* the double that 1.2 denotes *)

(** Line 123. *)
Definition ratio (usa_sal india_sal : float) : float :=
  if (0 <? india_sal_usd india_sal)%float
  then (usa_sal / india_sal_usd india_sal)%float
  else 0%float.

(** Line 129. *)
Definition ppp_ratio (ratio : float) : float :=
  if (0 <? ratio)%float then (ratio / 3)%float else 0%float.

(** Line 482, in "Key Insights": the same ratio, computed without a guard. *)
Definition insights_ratio (usa_median india_median : float) : float :=
  (usa_median / (india_median * 0x1.3333333333333p+0))%float.

(** Lines 283-284: the share of rows of a filtered view whose flag [col] is
    set, in percent, [df[col].sum() / len(df) * 100] in float64; 0 for an
    empty view. *)
Definition skill_pct (col : string) (df_filtered : list Row) : float :=
  if (0 <? length df_filtered)%nat
  then (Numpy.float64 (Z.of_nat (Pandas.flag_sum (fun r => skill r col) df_filtered))
        / Numpy.float64 (Z.of_nat (length df_filtered)) * 100)%float
  else 0%float.

(** Line 286: [usa_pct > 5 or india_pct > 5]. *)
Definition above_threshold (usa_pct india_pct : float) : bool :=
  ((5 <? usa_pct) || (5 <? india_pct))%float.

(** Lines 281-288: the body of the loop over [common_skill_cols], the flag
    columns the two tables share (line 270), in the order the loop meets
    them. *)
Definition skill_step (df_usa_filtered df_india_filtered : list Row)
    (acc : list (string * float) * list (string * float)) (col : string)
    : list (string * float) * list (string * float) :=
  let '(usa_skills, india_skills) := acc in
  let skill_name := Python.skill_name col in
  let usa_pct := skill_pct col df_usa_filtered in
  let india_pct := skill_pct col df_india_filtered in
  if above_threshold usa_pct india_pct
  then (Python.dict_set skill_name usa_pct usa_skills,
        Python.dict_set skill_name india_pct india_skills)
  else (usa_skills, india_skills).

(** Lines 278-288: the two dictionaries, filled side by side. *)
Definition skill_dicts (common_skill_cols : list string)
    (df_usa_filtered df_india_filtered : list Row)
    : list (string * float) * list (string * float) :=
  fold_left (skill_step df_usa_filtered df_india_filtered)
            common_skill_cols ([], []).

Definition usa_skills (common_skill_cols : list string)
    (df_usa_filtered df_india_filtered : list Row) : list (string * float) :=
  fst (skill_dicts common_skill_cols df_usa_filtered df_india_filtered).

Definition india_skills (common_skill_cols : list string)
    (df_usa_filtered df_india_filtered : list Row) : list (string * float) :=
  snd (skill_dicts common_skill_cols df_usa_filtered df_india_filtered).

(** Line 291, for one key: [usa_skills.get(k, 0) + india_skills.get(k, 0)],
    a float64 sum. *)
Definition combined_value (usa_skills india_skills : list (string * float))
    (k : string) : float :=
  (Python.dict_get usa_skills k 0 + Python.dict_get india_skills k 0)%float.

(** Line 291; [keys] is the order in which the set
    [set(usa_skills) | set(india_skills)] happens to be iterated. *)
Definition combined_skills (keys : list string)
    (usa_skills india_skills : list (string * float)) : list (string * float) :=
  map (fun k => (k, combined_value usa_skills india_skills k)) keys.

(** Lines 292-293; the values compared are float64 values, none of them
    NaN. *)
Definition top_skill_names (keys : list string)
    (usa_skills india_skills : list (string * float)) : list string :=
  map fst (firstn 15 (Python.sorted_desc PrimFloat.leb
                        (combined_skills keys usa_skills india_skills))).

(** The skills on the comparison chart (lines 278-299). *)
Definition shown_skills (common_skill_cols : list string)
    (df_usa_filtered df_india_filtered : list Row) (keys : list string)
    : list string :=
  top_skill_names keys
    (usa_skills common_skill_cols df_usa_filtered df_india_filtered)
    (india_skills common_skill_cols df_usa_filtered df_india_filtered).

Definition satisfies (categories : list string) (seniority_option : string)
    (r : Row) : Prop :=
  job_category r ∈ categories ∧
  (seniority_option ≠ "All" → seniority r = seniority_option).

Definition satisfiesb (categories : list string) (seniority_option : string)
    (r : Row) : bool :=
  Pandas.isin categories (job_category r)
  && (bool_decide (seniority_option = "All")
      || bool_decide (seniority r = seniority_option)).

Record Session := mkSession {
  table : list Row;
  view : list Row
}.

Definition rerun (s : Session) (categories : list string)
    (seniority_option : string) : Session :=
  {| table := table s; view := filter_data (table s) categories seniority_option |}.

End Comparison.

(** ** Example tables and selections *)

Module Examples.

(** Two jobs, and a selection the select boxes offer that matches neither. *)
Definition two_jobs : list App.Row :=
  [ App.mkRow "Senior" (Some "Texas") 100%float (fun _ => false);
    App.mkRow "Junior" (Some "Ohio") 60%float (fun _ => false) ].

Definition senior_in_ohio : App.Selection :=
  App.mkSelection (60%float, 100%float) "Senior" "Ohio".

Definition one_usa_job : list Comparison.Row :=
  [ Comparison.mkRow "Data Analyst" "Senior" 100%float (fun _ => false) ].

(** The table of the specification's example: ten salaries, the four
    "Senior" rows being those paid 100, 110, 120 and 140. *)
Definition ten_jobs : list App.Row :=
  [ App.mkRow "Junior" (Some "Texas") 50%float (fun _ => false);
    App.mkRow "Junior" (Some "Ohio") 60%float (fun _ => false);
    App.mkRow "Junior" (Some "Texas") 70%float (fun _ => false);
    App.mkRow "Mid-Level" (Some "Ohio") 80%float (fun _ => false);
    App.mkRow "Mid-Level" (Some "Texas") 90%float (fun _ => false);
    App.mkRow "Senior" (Some "Ohio") 100%float (fun _ => false);
    App.mkRow "Senior" (Some "Texas") 110%float (fun _ => false);
    App.mkRow "Senior" None 120%float (fun _ => false);
    App.mkRow "Mid-Level" (Some "Texas") 130%float (fun _ => false);
    App.mkRow "Senior" (Some "Iowa") 140%float (fun _ => false) ].

(** Twenty filtered rows of which exactly one has the Python flag: 5 %. *)
Definition one_python_in_twenty : list Comparison.Row :=
  Comparison.mkRow "Data Analyst" "Senior" 100%float
                   (fun col => bool_decide (col = "skill_python"))
  :: repeat (Comparison.mkRow "Data Analyst" "Senior" 100%float (fun _ => false)) 19.

(** Two filtered rows, one with the Python flag: 50 %. *)
Definition one_python_in_two : list Comparison.Row :=
  [ Comparison.mkRow "Data Analyst" "Senior" 100%float
                     (fun col => bool_decide (col = "skill_python"));
    Comparison.mkRow "Data Analyst" "Junior" 60%float (fun _ => false) ].

Definition senior_only : App.Selection :=
  App.mkSelection (50%float, 140%float) "Senior" "All".

(** Eighty filtered rows of which 23 have the Python flag: 28.75 %, which
    float64 computes as 28.749999999999996. *)
Definition python_23_of_80 : list App.Row :=
  repeat (App.mkRow "Senior" (Some "Texas") 100%float
                    (fun col => bool_decide (col = "skill_python"))) 23
  ++ repeat (App.mkRow "Senior" (Some "Texas") 100%float (fun _ => false)) 57.

(** Sixteen flag columns, and twenty filtered rows of a comparison table in
    which the column of rank [k] in that list is set in [k + 2] rows: 10 % for
    Python, 15 % for SQL, up to 85 % for statistics. *)
Definition sixteen_cols : list string :=
  [ "skill_python"; "skill_sql"; "skill_excel"; "skill_tableau";
    "skill_power_bi"; "skill_r"; "skill_aws"; "skill_azure";
    "skill_spark"; "skill_hadoop"; "skill_java"; "skill_scala";
    "skill_git"; "skill_docker"; "skill_linux"; "skill_statistics" ].

Definition sixteen_names : list string :=
  [ "Python"; "Sql"; "Excel"; "Tableau"; "Power Bi"; "R"; "Aws"; "Azure";
    "Spark"; "Hadoop"; "Java"; "Scala"; "Git"; "Docker"; "Linux"; "Statistics" ].

Definition graded_jobs : list Comparison.Row :=
  map (fun n =>
         Comparison.mkRow "Data Analyst" "Senior" 100%float
           (fun col =>
              existsb (fun kc => bool_decide (snd kc = col) && (n <? fst kc + 2)%nat)
                      (combine (seq 0 16) sixteen_cols)))
      (seq 0 20).

(** Six filtered rows of a comparison table, of which [python] have the
    Python flag and [sql] the SQL flag. *)
Definition six_jobs (python sql : nat) : list Comparison.Row :=
  map (fun n =>
         Comparison.mkRow "Data Analyst" "Senior" 100%float
           (fun col =>
              (bool_decide (col = "skill_python") && (n <? python)%nat)
              || (bool_decide (col = "skill_sql") && (n <? sql)%nat)))
      (seq 0 6).

End Examples.

(** ** Generic facts about mask selection *)

Section MaskFacts.
Context {A : Type}.

Lemma filter_filter_andb (p q : A -> bool) (l : list A) :
  List.filter q (List.filter p l) = List.filter (fun x => p x && q x) l.
Proof.
  induction l as [|x l IH]; simpl; [reflexivity|].
  destruct (p x); simpl; [destruct (q x)|]; rewrite IH; reflexivity.
Qed.

Lemma filter_true (l : list A) : List.filter (fun _ => true) l = l.
Proof. induction l as [|x l IH]; simpl; congruence. Qed.

Lemma filter_false (p : A -> bool) (l : list A) :
  (forall x, p x = false) -> List.filter p l = [].
Proof.
  intros Hp. induction l as [|x l IH]; simpl; [reflexivity|].
  rewrite Hp. exact IH.
Qed.

Lemma filter_length_le (p : A -> bool) (l : list A) :
  (length (List.filter p l) <= length l)%nat.
Proof.
  induction l as [|x l IH]; simpl; [lia|].
  destruct (p x); simpl; lia.
Qed.

Lemma filter_length_mono (p q : A -> bool) (l : list A) :
  (forall x, p x = true -> q x = true) ->
  (length (List.filter p l) <= length (List.filter q l))%nat.
Proof.
  intros Hpq. induction l as [|x l IH]; simpl; [lia|].
  destruct (p x) eqn:Hp.
  - rewrite (Hpq x Hp). simpl. lia.
  - destruct (q x); simpl; lia.
Qed.
End MaskFacts.

(** The staged masks of each engine collapse to one mask. *)

Lemma App_filtered_df_mask (df : list App.Row) (sel : App.Selection) :
  App.filtered_df df sel = List.filter (App.satisfiesb sel) df.
Proof.
  unfold App.filtered_df, App.satisfiesb.
  destruct (decide (App.selected_seniority sel = "All")) as [Hs|Hs];
    destruct (decide (App.selected_state sel = "All")) as [Ht|Ht];
    repeat first
      [ rewrite (bool_decide_eq_true_2 _ Hs) | rewrite (bool_decide_eq_false_2 _ Hs)
      | rewrite (bool_decide_eq_true_2 _ Ht) | rewrite (bool_decide_eq_false_2 _ Ht)
      | rewrite (bool_decide_eq_false_2 (_ ≠ _)) by (intros Hn; now apply Hn)
      | rewrite (bool_decide_eq_true_2 (_ ≠ _)) by assumption ];
    rewrite ?filter_filter_andb; apply List.filter_ext; intros r; simpl;
    rewrite ?andb_true_r, ?andb_assoc; reflexivity.
Qed.

Lemma Comparison_filter_data_mask (df : list Comparison.Row)
    (categories : list string) (seniority_option : string) :
  Comparison.filter_data df categories seniority_option
  = List.filter (Comparison.satisfiesb categories seniority_option) df.
Proof.
  unfold Comparison.filter_data, Comparison.satisfiesb.
  destruct (decide (seniority_option = "All")) as [Hs|Hs].
  - rewrite (bool_decide_eq_true_2 _ Hs).
    rewrite (bool_decide_eq_false_2 (_ ≠ _)) by (intros Hn; now apply Hn).
    apply List.filter_ext; intros r; simpl. now rewrite andb_true_r.
  - rewrite (bool_decide_eq_false_2 _ Hs).
    rewrite (bool_decide_eq_true_2 (_ ≠ _)) by assumption.
    rewrite filter_filter_andb. apply List.filter_ext; intros r; reflexivity.
Qed.

Lemma App_satisfiesb_spec (sel : App.Selection) (r : App.Row) :
  App.satisfiesb sel r = true <-> App.satisfies sel r.
Proof.
  unfold App.satisfiesb, App.satisfies, Pandas.between, Pandas.cell_eqb.
  rewrite !andb_true_iff, !orb_true_iff, !bool_decide_eq_true.
  destruct (App.state r) as [s|].
  - rewrite bool_decide_eq_true.
    destruct (decide (App.selected_seniority sel = "All"));
      destruct (decide (App.selected_state sel = "All")); intuition (congruence || auto).
  - destruct (decide (App.selected_seniority sel = "All"));
      destruct (decide (App.selected_state sel = "All")); intuition (congruence || auto).
Qed.

Lemma Comparison_satisfiesb_spec (categories : list string)
    (seniority_option : string) (r : Comparison.Row) :
  Comparison.satisfiesb categories seniority_option r = true
  <-> Comparison.satisfies categories seniority_option r.
Proof.
  unfold Comparison.satisfiesb, Comparison.satisfies, Pandas.isin.
  rewrite andb_true_iff, orb_true_iff, !bool_decide_eq_true.
  destruct (decide (seniority_option = "All")); intuition (congruence || auto).
Qed.

(** ** The filter engine *)

(** C1. Each filter engine returns exactly the rows of its table that satisfy
    the conjunction of the active predicates, in table order and with their
    multiplicity: salary within the inclusive range, seniority equal to the
    selection unless it is "All", state equal to the selection unless it is
    "All" (app.py); category among the selected ones, seniority equal to the
    selection unless it is "All" (app_comparison.py). *)
Theorem filter_engine_conjunction :
  (forall (df : list App.Row) (sel : App.Selection),
      App.filtered_df df sel = List.filter (App.satisfiesb sel) df /\
      forall r, In r (App.filtered_df df sel) <-> In r df /\ App.satisfies sel r) /\
  (forall (df : list Comparison.Row) (categories : list string)
          (seniority_option : string),
      Comparison.filter_data df categories seniority_option
      = List.filter (Comparison.satisfiesb categories seniority_option) df /\
      forall r, In r (Comparison.filter_data df categories seniority_option)
                <-> In r df /\ Comparison.satisfies categories seniority_option r).
Proof.
  split.
  - intros df sel. split; [apply App_filtered_df_mask|].
    intros r. rewrite App_filtered_df_mask, filter_In, App_satisfiesb_spec.
    reflexivity.
  - intros df categories seniority_option.
    split; [apply Comparison_filter_data_mask|].
    intros r.
    rewrite Comparison_filter_data_mask, filter_In, Comparison_satisfiesb_spec.
    reflexivity.
Qed.

(** C3. Whatever the selections, the filtered view has at most as many rows
    as the source table. *)
Theorem filtered_view_row_count_le :
  (forall (df : list App.Row) (sel : App.Selection),
      (length (App.filtered_df df sel) <= length df)%nat) /\
  (forall (df : list Comparison.Row) (categories : list string)
          (seniority_option : string),
      (length (Comparison.filter_data df categories seniority_option)
       <= length df)%nat).
Proof.
  split.
  - intros df sel. rewrite App_filtered_df_mask. apply filter_length_le.
  - intros df categories seniority_option.
    rewrite Comparison_filter_data_mask. apply filter_length_le.
Qed.

(** C4. Running the script with seniority restricted to one value and then
    again with seniority "All" shows the same number of rows as running it
    with "All" directly, and that view is the table filtered by the other
    selections only: "All" imposes no seniority restriction. *)
Theorem seniority_all_restores_count :
  (forall (s : App.Session) (sel : App.Selection) (v : string),
      let restricted := App.rerun s (App.with_seniority sel v) in
      let expanded := App.rerun restricted (App.with_seniority sel "All") in
      length (App.view expanded)
      = length (App.view (App.rerun s (App.with_seniority sel "All"))) /\
      App.view expanded
      = List.filter
          (fun r =>
             Pandas.between (fst (App.salary_range sel)) (snd (App.salary_range sel))
                            (App.avg_salary_k r)
             && (bool_decide (App.selected_state sel = "All")
                 || Pandas.cell_eqb (App.state r) (App.selected_state sel)))
          (App.table s) /\
      (length (App.view restricted) <= length (App.view expanded))%nat) /\
  (forall (s : Comparison.Session) (categories : list string) (v : string),
      let restricted := Comparison.rerun s categories v in
      let expanded := Comparison.rerun restricted categories "All" in
      length (Comparison.view expanded)
      = length (Comparison.view (Comparison.rerun s categories "All")) /\
      Comparison.view expanded
      = List.filter (fun r => Pandas.isin categories (Comparison.job_category r))
                    (Comparison.table s) /\
      (length (Comparison.view restricted) <= length (Comparison.view expanded))%nat).
Proof.
  split.
  - intros s sel v. cbn zeta. split; [reflexivity|]. split.
    + unfold App.rerun; cbn [App.view App.table].
      rewrite App_filtered_df_mask. apply List.filter_ext. intros r.
      unfold App.satisfiesb, App.with_seniority; cbn.
      now rewrite andb_true_r.
    + unfold App.rerun; cbn [App.view App.table].
      rewrite !App_filtered_df_mask. apply filter_length_mono. intros r.
      unfold App.satisfiesb, App.with_seniority; cbn.
      rewrite !andb_true_iff. tauto.
  - intros s categories v. cbn zeta. split; [reflexivity|]. split.
    + unfold Comparison.rerun, Comparison.filter_data; cbn.
      now rewrite (bool_decide_eq_false_2 ("All" ≠ "All")) by (intros Hn; now apply Hn).
    + unfold Comparison.rerun, Comparison.filter_data; cbn.
      rewrite (bool_decide_eq_false_2 ("All" ≠ "All")) by (intros Hn; now apply Hn).
      destruct (bool_decide (v ≠ "All")); [apply filter_length_le|apply Nat.le_refl].
Qed.

(** C8. With no category selected the comparison dashboard's view is empty,
    for every table and every seniority selection. *)
Theorem empty_category_selection_empty_view :
  forall (df : list Comparison.Row) (seniority_option : string),
    Comparison.filter_data df [] seniority_option = [] /\
    length (Comparison.filter_data df [] seniority_option) = 0%nat.
Proof.
  intros df seniority_option.
  assert (H : Comparison.filter_data df [] seniority_option = []).
  { rewrite Comparison_filter_data_mask. apply filter_false. intros r.
    unfold Comparison.satisfiesb, Pandas.isin.
    rewrite bool_decide_eq_false_2; [reflexivity|]. apply not_elem_of_nil. }
  now rewrite H.
Qed.

(** ** The median metric *)

Lemma median_nil : Pandas.median [] = nan.
Proof. reflexivity. Qed.

(** C2. When the filtered view is empty the median is NaN and the metric text
    is built from it without a guard: both dashboards display "$nanK", not a
    "no data" indicator. *)
Theorem empty_view_median_metric_is_nan
    (df : list App.Row) (sel : App.Selection)
    (df_usa : list Comparison.Row) (categories : list string)
    (seniority_option : string) :
  App.filtered_df df sel = [] ->
  Comparison.filter_data df_usa categories seniority_option = [] ->
  App.median_salary_metric (App.filtered_df df sel) = "$nanK" /\
  Comparison.median_sal_metric
    (Comparison.filter_data df_usa categories seniority_option) = "$nanK".
Proof.
  intros -> ->. split; reflexivity.
Qed.

(** The two-job table with a selection that matches neither job, and the
    comparison dashboard with no category selected. *)
Lemma empty_view_median_metric_is_nan_witness :
  App.filtered_df Examples.two_jobs Examples.senior_in_ohio = [] /\
  Comparison.filter_data Examples.one_usa_job [] "All" = [] /\
  App.median_salary_metric (App.filtered_df Examples.two_jobs Examples.senior_in_ohio) = "$nanK" /\
  Comparison.median_sal_metric (Comparison.filter_data Examples.one_usa_job [] "All")
  = "$nanK".
Proof.
  split; [reflexivity|]. split; [reflexivity|].
  apply (empty_view_median_metric_is_nan Examples.two_jobs Examples.senior_in_ohio Examples.one_usa_job [] "All");
    reflexivity.
Defined.

Ltac float_absurd H :=
  apply (f_equal Prim2SF) in H; vm_compute in H; discriminate H.

Ltac senior_no Hsen Hsal :=
  rewrite Hsen by (simpl; tauto); rewrite Hsal; simpl;
  intros [E|[E|[E|[E|[]]]]]; float_absurd E.

Ltac senior_yes Hsen Hsal :=
  rewrite Hsen by (simpl; tauto); rewrite Hsal; simpl; tauto.

(** C9. For every table whose salaries are 50, 60, ..., 140 and whose
    "Senior" rows are exactly those paid 100, 110, 120 and 140, selecting
    seniority "Senior" (full salary range, every state) leaves those four rows
    and the median salary of the view is exactly 115. *)
Theorem senior_median_is_115 (df : list App.Row) :
  map App.avg_salary_k df = [50; 60; 70; 80; 90; 100; 110; 120; 130; 140]%float ->
  (forall r, In r df ->
     (App.seniority r = "Senior"
      <-> In (App.avg_salary_k r) [100; 110; 120; 140]%float)) ->
  map App.avg_salary_k (App.filtered_df df Examples.senior_only)
  = [100; 110; 120; 140]%float /\
  App.median_salary (App.filtered_df df Examples.senior_only) = 115%float /\
  App.median_salary_metric (App.filtered_df df Examples.senior_only) = "$115K".
Proof.
  intros Hsal Hsen.
  destruct df as [|a1 [|a2 [|a3 [|a4 [|a5 [|a6 [|a7 [|a8 [|a9 [|a10 [|]]]]]]]]]]];
    try discriminate Hsal.
  injection Hsal as H1 H2 H3 H4 H5 H6 H7 H8 H9 H10.
  assert (Hview : map App.avg_salary_k
                    (App.filtered_df [a1; a2; a3; a4; a5; a6; a7; a8; a9; a10]
                                     Examples.senior_only)
                  = [100; 110; 120; 140]%float).
  { rewrite App_filtered_df_mask. unfold App.satisfiesb, Examples.senior_only.
    cbn [List.filter App.salary_range App.selected_seniority App.selected_state
         fst snd].
    rewrite (bool_decide_eq_false_2 (App.seniority a1 = "Senior")) by senior_no Hsen H1.
    rewrite (bool_decide_eq_false_2 (App.seniority a2 = "Senior")) by senior_no Hsen H2.
    rewrite (bool_decide_eq_false_2 (App.seniority a3 = "Senior")) by senior_no Hsen H3.
    rewrite (bool_decide_eq_false_2 (App.seniority a4 = "Senior")) by senior_no Hsen H4.
    rewrite (bool_decide_eq_false_2 (App.seniority a5 = "Senior")) by senior_no Hsen H5.
    rewrite (bool_decide_eq_true_2 (App.seniority a6 = "Senior")) by senior_yes Hsen H6.
    rewrite (bool_decide_eq_true_2 (App.seniority a7 = "Senior")) by senior_yes Hsen H7.
    rewrite (bool_decide_eq_true_2 (App.seniority a8 = "Senior")) by senior_yes Hsen H8.
    rewrite (bool_decide_eq_false_2 (App.seniority a9 = "Senior")) by senior_no Hsen H9.
    rewrite (bool_decide_eq_true_2 (App.seniority a10 = "Senior")) by senior_yes Hsen H10.
    rewrite H1, H2, H3, H4, H5, H6, H7, H8, H9, H10.
    repeat match goal with
    | |- context [Pandas.between ?a ?b ?c] =>
        replace (Pandas.between a b c) with true by reflexivity
    end.
    rewrite (bool_decide_eq_false_2 ("Senior" = "All")) by discriminate.
    rewrite (bool_decide_eq_true_2 ("All" = "All")) by reflexivity.
    cbn [andb orb map]. now rewrite H6, H7, H8, H10. }
  split; [exact Hview|].
  unfold App.median_salary_metric, App.median_salary. rewrite Hview.
  split; reflexivity.
Qed.

(** The ten-job table of [Examples] meets the description. *)
Lemma senior_median_is_115_witness :
  App.median_salary (App.filtered_df Examples.ten_jobs Examples.senior_only)
  = 115%float.
Proof.
  apply (senior_median_is_115 Examples.ten_jobs).
  - reflexivity.
  - intros r Hr. simpl in Hr.
    repeat (destruct Hr as [<-|Hr]; [simpl; split;
      first [ intros E; discriminate E
            | intros [E|[E|[E|[E|[]]]]]; float_absurd E
            | tauto ] |]).
    destruct Hr.
Defined.

(** ** Loading *)

(** C10. [load_data] keeps every row, in order, and changes only the state
    cell: a cell holding one of the 51 two-letter keys of [state_mapping]
    becomes the mapped full name, and any other cell (unknown text or missing)
    is left as it was. *)
Theorem load_data_keeps_unknown_states (csv : list App.Row) :
  size App.state_mapping = 51%nat /\
  map_Forall (fun k _ => String.length k = 2%nat) App.state_mapping /\
  length (App.load_data csv) = length csv /\
  Forall2
    (fun r r' =>
       App.seniority r' = App.seniority r /\
       App.avg_salary_k r' = App.avg_salary_k r /\
       App.skill r' = App.skill r /\
       App.state r' =
         match App.state r with
         | Some s =>
             match App.state_mapping !! s with
             | Some full => Some full
             | None => Some s
             end
         | None => None
         end)
    csv (App.load_data csv).
Proof.
  split; [vm_compute; reflexivity|].
  split.
  { apply map_Forall_to_list. vm_compute.
    repeat (apply List.Forall_cons; [reflexivity|]). apply List.Forall_nil. }
  split; [apply length_map|].
  induction csv as [|r csv IH]; cbn [App.load_data map]; constructor; [|exact IH].
  cbn [App.seniority App.avg_salary_k App.skill App.state].
  repeat split.
  unfold Pandas.fillna, Pandas.map_dict.
  destruct (App.state r) as [s|]; [|reflexivity].
  destruct (App.state_mapping !! s); reflexivity.
Qed.

(** ** Flag counts, dictionaries and list prefixes *)

Lemma flag_sum_le {A : Type} (flag : A -> bool) (df : list A) :
  (Pandas.flag_sum flag df <= length df)%nat.
Proof.
  induction df as [|r df IH]; simpl; [lia|]. destruct (flag r); lia.
Qed.

Section DictFacts.
Context {V : Type}.

Lemma dict_set_Forall (P : string * V -> Prop) (k : string) (v : V)
    (d : list (string * V)) :
  P (k, v) -> List.Forall P d -> List.Forall P (Python.dict_set k v d).
Proof.
  intros Hkv Hd. induction Hd as [|[k' v'] d Hx Hd IH]; simpl.
  - constructor; [exact Hkv|constructor].
  - destruct (bool_decide (k' = k)); constructor; assumption.
Qed.

Lemma dict_set_keys (k : string) (v : V) (d : list (string * V)) (x : string) :
  In x (map fst (Python.dict_set k v d)) <-> x = k \/ In x (map fst d).
Proof.
  induction d as [|[k' v'] d IH]; simpl.
  - intuition congruence.
  - destruct (bool_decide (k' = k)) eqn:E; simpl.
    + apply bool_decide_eq_true in E. subst k'. intuition congruence.
    + rewrite IH. intuition congruence.
Qed.

Lemma insert_desc_perm (leb : V -> V -> bool) (x : string * V)
    (l : list (string * V)) :
  Permutation (Python.insert_desc leb x l) (x :: l).
Proof.
  induction l as [|y l IH]; simpl; [reflexivity|].
  destruct (leb (snd y) (snd x)); [reflexivity|].
  rewrite IH. apply perm_swap.
Qed.

Lemma sorted_desc_perm (leb : V -> V -> bool) (l : list (string * V)) :
  Permutation (Python.sorted_desc leb l) l.
Proof.
  induction l as [|x l IH]; simpl; [reflexivity|].
  rewrite insert_desc_perm. now apply perm_skip.
Qed.
End DictFacts.

Lemma firstn_Forall {A : Type} (P : A -> Prop) (n : nat) (l : list A) :
  List.Forall P l -> List.Forall P (firstn n l).
Proof.
  revert n. induction l as [|x l IH]; intros [|n] H; simpl; try constructor.
  - now inversion H.
  - apply IH. now inversion H.
Qed.

Lemma firstn_subset {A : Type} (n : nat) (l : list A) (x : A) :
  In x (firstn n l) -> In x l.
Proof.
  revert n. induction l as [|y l IH]; intros [|n]; simpl; try tauto.
  intros [H|H]; [now left|right; eauto].
Qed.

Lemma firstn_short {A : Type} (n : nat) (l : list A) :
  (length l <= n)%nat -> firstn n l = l.
Proof. apply firstn_all2. Qed.

Lemma skill_counts_bounded (columns : list string) (view : list App.Row) :
  List.Forall (fun kv => (0 < snd kv <= length view)%nat)
              (App.skill_counts columns view).
Proof.
  unfold App.skill_counts.
  generalize (App.skill_cols columns) as cols.
  assert (Hgen : forall cols acc,
             List.Forall (fun kv : string * nat => (0 < snd kv <= length view)%nat) acc ->
             List.Forall (fun kv : string * nat => (0 < snd kv <= length view)%nat)
               (fold_left
                  (fun skill_counts col =>
                     let count := Pandas.flag_sum (fun r => App.skill r col) view in
                     if (0 <? count)%nat
                     then Python.dict_set (Python.skill_name col) count skill_counts
                     else skill_counts) cols acc)).
  { induction cols as [|col cols IH]; intros acc Hacc; simpl; [exact Hacc|].
    apply IH.
    destruct (0 <? Pandas.flag_sum (fun r => App.skill r col) view)%nat eqn:E;
      [|exact Hacc].
    apply dict_set_Forall; [|exact Hacc]. simpl.
    apply Nat.ltb_lt in E. split; [exact E|apply flag_sum_le]. }
  intros cols. apply Hgen. constructor.
Qed.

(** ** Binary64 multiplication by the conversion constant is monotone *)

Ltac bool_to_prop :=
  repeat match goal with
  | H : (_ <? _)%Z = true |- _ => apply Z.ltb_lt in H
  | H : (_ <? _)%Z = false |- _ => apply Z.ltb_ge in H
  | H : (_ =? _)%Z = true |- _ => apply Z.eqb_eq in H
  | H : (_ =? _)%Z = false |- _ => apply Z.eqb_neq in H
  | H : (_ <=? _)%Z = true |- _ => apply Z.leb_le in H
  | H : (_ <=? _)%Z = false |- _ => apply Z.leb_gt in H
  end.

Section Binary64Facts.
Local Open Scope Z_scope.


Lemma digits2_pos_bounds (p : positive) :
  2 ^ (Z.pos (digits2_pos p) - 1) <= Z.pos p < 2 ^ Z.pos (digits2_pos p).
Proof.
  induction p as [p IH|p IH|]; simpl digits2_pos.
  - rewrite Pos2Z.inj_succ. replace (Z.succ (Z.pos (digits2_pos p)) - 1) with (Z.succ (Z.pos (digits2_pos p) - 1)) by lia.
    rewrite !Z.pow_succ_r by lia. lia.
  - rewrite Pos2Z.inj_succ. replace (Z.succ (Z.pos (digits2_pos p)) - 1) with (Z.succ (Z.pos (digits2_pos p) - 1)) by lia.
    rewrite !Z.pow_succ_r by lia. lia.
  - simpl. lia.
Qed.

Lemma digits2_pos_unique (p : positive) (d : Z) :
  2 ^ (d - 1) <= Z.pos p < 2 ^ d -> 0 < d -> Z.pos (digits2_pos p) = d.
Proof.
  intros [Hlo Hhi] Hd. pose proof (digits2_pos_bounds p) as [Hlo' Hhi'].
  set (d' := Z.pos (digits2_pos p)) in *. assert (0 < d') by (unfold d'; lia).
  destruct (Z.lt_trichotomy d' d) as [Hlt|[Heq|Hgt]]; [|exact Heq|].
  - exfalso. assert (2 ^ d' <= 2 ^ (d - 1)) by (apply Z.pow_le_mono_r; lia). lia.
  - exfalso. assert (2 ^ d <= 2 ^ (d' - 1)) by (apply Z.pow_le_mono_r; lia). lia.
Qed.

Lemma shr_1_nonneg (m : Z) (r s : bool) :
  0 <= m ->
  shr_1 {| shr_m := m; shr_r := r; shr_s := s |}
  = {| shr_m := m / 2; shr_r := Z.odd m; shr_s := r || s |}.
Proof.
  intros Hm. destruct m as [|p|p]; [reflexivity| |lia].
  destruct p as [p|p|]; simpl shr_1; simpl Z.odd.
  - f_equal. rewrite Pos2Z.inj_xI. apply (Z.div_unique _ _ _ 1); lia.
  - f_equal. rewrite Pos2Z.inj_xO. apply (Z.div_unique _ _ _ 0); lia.
  - reflexivity.
Qed.

Lemma iter_pos_nat {A : Type} (f : A -> A) (p : positive) (x : A) :
  SpecFloat.iter_pos f p x = Nat.iter (Pos.to_nat p) f x.
Proof.
  revert x. induction p as [p IH|p IH|]; intros x; cbn [SpecFloat.iter_pos].
  - rewrite !IH, Pos2Nat.inj_xI. 
    replace (S (2 * Pos.to_nat p))%nat with (Pos.to_nat p + (Pos.to_nat p + 1))%nat by lia.
    rewrite !Nat.iter_add. simpl. reflexivity.
  - rewrite !IH, Pos2Nat.inj_xO.
    replace (2 * Pos.to_nat p)%nat with (Pos.to_nat p + Pos.to_nat p)%nat by lia.
    rewrite Nat.iter_add. reflexivity.
  - reflexivity.
Qed.

(** the record after [n+1] one-bit shifts of [M] *)
Lemma iter_shr_1 (M : Z) (n : nat) :
  0 <= M ->
  Nat.iter (S n) shr_1 {| shr_m := M; shr_r := false; shr_s := false |}
  = {| shr_m := M / 2 ^ Z.of_nat (S n);
       shr_r := Z.odd (M / 2 ^ Z.of_nat n);
       shr_s := negb (M mod 2 ^ Z.of_nat n =? 0) |}.
Proof.
  intros HM. induction n as [|n IH].
  - unfold Nat.iter; cbn [nat_rect]. rewrite shr_1_nonneg by exact HM.
    change (2 ^ Z.of_nat 1) with 2. change (2 ^ Z.of_nat 0) with 1.
    rewrite Z.div_1_r, Z.mod_1_r. reflexivity.
  - change (Nat.iter (S (S n)) shr_1 ?x) with (shr_1 (Nat.iter (S n) shr_1 x)).
    rewrite IH. rewrite shr_1_nonneg by (apply Z.div_pos; lia).
    f_equal.
    + rewrite Z.div_div by lia. f_equal. rewrite (Nat2Z.inj_succ (S n)), Z.pow_succ_r by lia. lia.
    + rewrite (Nat2Z.inj_succ n), Z.pow_succ_r by lia.
      set (k := 2 ^ Z.of_nat n). assert (0 < k) by (unfold k; lia).
      rewrite (Z.mul_comm 2 k), Z.rem_mul_r by lia.
      pose proof (Z.mod_pos_bound M k ltac:(lia)).
      rewrite Zmod_odd.
      destruct (Z.odd (M / k)) eqn:Ho; destruct (M mod k =? 0) eqn:Hz; simpl;
        [apply Z.eqb_eq in Hz|apply Z.eqb_neq in Hz|apply Z.eqb_eq in Hz
        |apply Z.eqb_neq in Hz];
        symmetry; rewrite ?negb_true_iff, ?negb_false_iff, ?Z.eqb_eq, ?Z.eqb_neq; lia.
Qed.

Lemma round_shift_bounds (M n : Z) :
  M / 2 ^ n <= Binary64.round_shift M n <= M / 2 ^ n + 1.
Proof.
  unfold Binary64.round_shift. destruct (_ || _); lia.
Qed.

Lemma round_shift_mono (M1 M2 n : Z) :
  1 <= n -> 0 <= M1 <= M2 ->
  Binary64.round_shift M1 n <= Binary64.round_shift M2 n.
Proof.
  intros Hn [H0 H12].
  assert (Hk : 0 < 2 ^ n) by (apply Z.pow_pos_nonneg; lia).
  assert (Hq : M1 / 2 ^ n <= M2 / 2 ^ n) by (apply Z.div_le_mono; lia).
  destruct (Z.eq_dec (M1 / 2 ^ n) (M2 / 2 ^ n)) as [Heq|Hne].
  - pose proof (Z.div_mod M1 (2 ^ n) ltac:(lia)) as E1.
    pose proof (Z.div_mod M2 (2 ^ n) ltac:(lia)) as E2.
    unfold Binary64.round_shift. rewrite <- Heq in *.
    set (q := M1 / 2 ^ n) in *. set (r1 := M1 mod 2 ^ n) in *.
    set (r2 := M2 mod 2 ^ n) in *. set (h := 2 ^ (n - 1)).
    assert (r1 <= r2) by lia.
    destruct (h <? r1) eqn:A1; destruct (h =? r1) eqn:B1;
      destruct (h <? r2) eqn:A2; destruct (h =? r2) eqn:B2;
      destruct (Z.odd q); simpl; bool_to_prop; lia.
  - pose proof (round_shift_bounds M1 n). pose proof (round_shift_bounds M2 n). lia.
Qed.

Lemma round_shift_exact (a n : Z) :
  1 <= n -> Binary64.round_shift (a * 2 ^ n) n = a.
Proof.
  intros Hn. assert (Hk : 0 < 2 ^ n) by (apply Z.pow_pos_nonneg; lia).
  unfold Binary64.round_shift.
  rewrite Z.div_mul, Z.mod_mul by lia.
  assert (Hh : 0 < 2 ^ (n - 1)) by (apply Z.pow_pos_nonneg; lia).
  destruct (2 ^ (n - 1) <? 0) eqn:A; destruct (2 ^ (n - 1) =? 0) eqn:B; simpl;
    bool_to_prop; try lia.
Qed.

Lemma round_shift_double (M n : Z) :
  1 <= n -> Binary64.round_shift (2 * M) (n + 1) = Binary64.round_shift M n.
Proof.
  intros Hn. unfold Binary64.round_shift.
  assert (Hk : 0 < 2 ^ n) by (apply Z.pow_pos_nonneg; lia).
  replace (n + 1 - 1) with (Z.succ (n - 1)) by lia.
  replace (n + 1) with (Z.succ n) by lia.
  rewrite !Z.pow_succ_r by lia.
  rewrite Z.mul_mod_distr_l, Z.div_mul_cancel_l by lia.
  set (q := M / 2 ^ n). set (r := M mod 2 ^ n). set (h := 2 ^ (n - 1)).
  destruct (h <? r) eqn:A1; destruct (h =? r) eqn:B1;
    destruct (2 * h <? 2 * r) eqn:A2; destruct (2 * h =? 2 * r) eqn:B2;
    simpl; bool_to_prop; try lia; reflexivity.
Qed.

Lemma shr_round (M : Z) (p : positive) :
  0 <= M ->
  round_nearest_even
    (shr_m (SpecFloat.iter_pos shr_1 p {| shr_m := M; shr_r := false; shr_s := false |}))
    (loc_of_shr_record
       (SpecFloat.iter_pos shr_1 p {| shr_m := M; shr_r := false; shr_s := false |}))
  = Binary64.round_shift M (Z.pos p).
Proof.
  intros HM. rewrite iter_pos_nat.
  destruct (Pos2Nat.is_succ p) as [n Hn]. rewrite Hn, iter_shr_1 by exact HM.
  assert (Hp : Z.pos p = Z.succ (Z.of_nat n)) by lia.
  unfold Binary64.round_shift. rewrite Hp.
  replace (Z.succ (Z.of_nat n) - 1) with (Z.of_nat n) by lia.
  rewrite <- Nat2Z.inj_succ.
  set (h := 2 ^ Z.of_nat n). assert (Hh : 0 < h) by (apply Z.pow_pos_nonneg; lia).
  assert (Hk : 2 ^ Z.of_nat (S n) = h * 2).
  { rewrite Nat2Z.inj_succ, Z.pow_succ_r by lia. unfold h. lia. }
  rewrite Hk. rewrite Z.rem_mul_r by lia. rewrite Zmod_odd.
  pose proof (Z.mod_pos_bound M h Hh) as Hlow.
  set (low := M mod h) in *. set (q := M / (h * 2)).
  cbn [shr_m loc_of_shr_record].
  assert (Heven : Z.even q = negb (Z.odd q)) by (rewrite <- Z.negb_odd; reflexivity).
  destruct (Z.odd (M / h)); destruct (low =? 0) eqn:Hz; cbn [negb round_nearest_even];
    rewrite ?Heven;
    destruct (h <? low + h * 1) eqn:A1; destruct (h =? low + h * 1) eqn:B1;
    destruct (h <? low + h * 0) eqn:A2; destruct (h =? low + h * 0) eqn:B2;
    destruct (Z.odd q); simpl; bool_to_prop; try lia; reflexivity.
Qed.

Lemma binary_round_aux_shift (s : bool) (M : positive) (E : Z) (p : positive) :
  fexp prec emax (Z.pos (digits2_pos M) + E) - E = Z.pos p ->
  binary_round_aux prec emax s (Z.pos M) E loc_Exact
  = Binary64.pack s
      (let '(mrs, e) :=
         shr_fexp prec emax (Binary64.round_shift (Z.pos M) (Z.pos p))
                  (E + Z.pos p) loc_Exact in
       (shr_m mrs, e)).
Proof.
  intros Hn. unfold binary_round_aux.
  unfold shr_fexp at 1. cbn [Zdigits2 shr_record_of_loc]. rewrite Hn.
  cbn [shr]. rewrite shr_round by lia.
  destruct (shr_fexp prec emax _ _ loc_Exact) as [mrs e].
  unfold Binary64.pack. cbn [fst snd]. reflexivity.
Qed.

Lemma shr_fexp_noshift (m e : Z) :
  fexp prec emax (Zdigits2 m + e) = e ->
  shr_fexp prec emax m e loc_Exact
  = ({| shr_m := m; shr_r := false; shr_s := false |}, e).
Proof.
  intros H. unfold shr_fexp. rewrite H, Z.sub_diag. reflexivity.
Qed.

Lemma shr_fexp_carry (e : Z) :
  -1074 <= e ->
  shr_fexp prec emax (2 ^ 53) e loc_Exact
  = ({| shr_m := 2 ^ 52; shr_r := false; shr_s := false |}, e + 1).
Proof.
  intros He. unfold shr_fexp.
  change (Zdigits2 (2 ^ 53)) with 54.
  unfold fexp, emin, prec, emax.
  replace (Z.max (54 + e - 53) (3 - 1024 - 53) - e) with 1 by lia.
  reflexivity.
Qed.

(** a canonical mantissa has at most 53 bits, and exactly 53 above the least exponent *)
Lemma bounded_inv (mx : positive) (ex : Z) :
  bounded prec emax mx ex = true ->
  -1074 <= ex <= 971 /\ Z.pos mx < 2 ^ 53 /\ (2 ^ 52 <= Z.pos mx \/ ex = -1074).
Proof.
  unfold bounded, canonical_mantissa, fexp, emin, prec, emax.
  intros H. apply andb_prop in H. destruct H as [Hc He].
  apply Z.eqb_eq in Hc. apply Z.leb_le in He.
  pose proof (digits2_pos_bounds mx) as [Hlo Hhi].
  set (d := Z.pos (digits2_pos mx)) in *.
  assert (Hd : d <= 53) by lia.
  split; [lia|]. split.
  - apply Z.lt_le_trans with (2 ^ d); [exact Hhi|]. apply Z.pow_le_mono_r; lia.
  - destruct (Z.eq_dec d 53) as [Hd53|Hd53].
    + left. rewrite Hd53 in Hlo. exact Hlo.
    + right. lia.
Qed.

Lemma digits2_pos_le (p : positive) (d : Z) :
  0 <= d -> Z.pos p < 2 ^ d -> Z.pos (digits2_pos p) <= d.
Proof.
  intros Hd Hp. pose proof (digits2_pos_bounds p) as [Hlo _].
  destruct (Z.le_gt_cases (Z.pos (digits2_pos p)) d) as [H|H]; [exact H|].
  exfalso. assert (2 ^ d <= 2 ^ (Z.pos (digits2_pos p) - 1)) by (apply Z.pow_le_mono_r; lia).
  lia.
Qed.

Lemma Zdigits2_unique (m d : Z) :
  0 < d -> 2 ^ (d - 1) <= m < 2 ^ d -> Zdigits2 m = d.
Proof.
  intros Hd [Hlo Hhi].
  assert (0 < 2 ^ (d - 1)) by (apply Z.pow_pos_nonneg; lia).
  destruct m as [|p|p]; try lia. simpl. now apply digits2_pos_unique.
Qed.

Lemma Zdigits2_le (m d : Z) :
  0 <= d -> 0 <= m < 2 ^ d -> Zdigits2 m <= d.
Proof.
  intros Hd [Hlo Hhi]. destruct m as [|p|p]; simpl; [lia| |lia].
  now apply digits2_pos_le.
Qed.

Lemma mc_bounds : 2 ^ 52 <= Z.pos Binary64.mc < 2 ^ 53.
Proof. split; [discriminate|reflexivity]. Qed.

Lemma binary_round_mul_c (s : bool) (mx : positive) (ex : Z) :
  bounded prec emax mx ex = true ->
  binary_round_aux prec emax s (Z.pos (mx * Binary64.mc)) (ex + Binary64.ec) loc_Exact
  = Binary64.pack s (Binary64.mul_c mx ex).
Proof.
  intros Hb. destruct (bounded_inv mx ex Hb) as (Hex & Hmx & Hnorm).
  pose proof mc_bounds as [Hc1 Hc2].
  unfold Binary64.mul_c, Binary64.ec. rewrite <- Pos2Z.inj_mul.
  set (M := (mx * Binary64.mc)%positive).
  assert (HM : Z.pos M = Z.pos mx * Z.pos Binary64.mc) by (unfold M; lia).
  assert (HMlo : 2 ^ 52 <= Z.pos M) by nia.
  assert (HMhi : Z.pos M < 2 ^ 106).
  { change (2 ^ 106) with (2 ^ 53 * 2 ^ 53). nia. }
  destruct (Z.pos M <? 2 ^ 105) eqn:H105; bool_to_prop.
  - (* shift by 52 *)
    assert (Hn : fexp prec emax (Z.pos (digits2_pos M) + (ex + -52)) - (ex + -52)
                 = Z.pos 52).
    { unfold fexp, emin, prec, emax.
      pose proof (digits2_pos_le M 105 ltac:(lia) H105) as HD.
      destruct Hnorm as [Hn|Hs].
      - assert (Z.pos (digits2_pos M) = 105).
        { apply digits2_pos_unique; [|lia]. split; [|exact H105].
          change (2 ^ (105 - 1)) with (2 ^ 52 * 2 ^ 52). nia. }
        lia.
      - lia. }
    rewrite (binary_round_aux_shift s M _ 52 Hn).
    replace (ex + -52 + 52) with ex by lia.
    pose proof (round_shift_bounds (Z.pos M) 52) as [Hq1 Hq2].
    assert (Hqlo : 1 <= Z.pos M / 2 ^ 52).
    { apply Z.div_le_lower_bound; lia. }
    assert (Hqhi : Z.pos M / 2 ^ 52 < 2 ^ 53).
    { apply Z.div_lt_upper_bound; [lia|]. change (2 ^ 52 * 2 ^ 53) with (2 ^ 105). lia. }
    set (m := Binary64.round_shift (Z.pos M) 52) in *.
    destruct (m <? 2 ^ 53) eqn:Hm; bool_to_prop.
    + rewrite shr_fexp_noshift; [reflexivity|].
      unfold fexp, emin, prec, emax.
      pose proof (Zdigits2_le m 53 ltac:(lia) ltac:(lia)) as Hd.
      destruct Hnorm as [Hn'|Hs]; [|lia].
      rewrite (Zdigits2_unique m 53); [lia|lia|].
      split; [|exact Hm]. change (2 ^ (53 - 1)) with (2 ^ 52).
      apply Z.le_trans with (Z.pos M / 2 ^ 52); [|exact Hq1].
      apply Z.div_le_lower_bound; [lia|]. nia.
    + assert (Hm53 : m = 2 ^ 53) by lia. rewrite Hm53.
      rewrite shr_fexp_carry by lia. reflexivity.
  - (* shift by 53 *)
    assert (Hn52 : 2 ^ 52 <= Z.pos mx).
    { destruct (Z.le_gt_cases (2 ^ 52) (Z.pos mx)) as [H|H]; [exact H|].
      exfalso. change (2 ^ 105) with (2 ^ 52 * 2 ^ 53) in H105. nia. }
    assert (HD : Z.pos (digits2_pos M) = 106).
    { apply digits2_pos_unique; [|lia]. split; [exact H105|exact HMhi]. }
    assert (Hn : fexp prec emax (Z.pos (digits2_pos M) + (ex + -52)) - (ex + -52)
                 = Z.pos 53).
    { unfold fexp, emin, prec, emax. lia. }
    rewrite (binary_round_aux_shift s M _ 53 Hn).
    replace (ex + -52 + 53) with (ex + 1) by lia.
    assert (Hlo : 2 ^ 52 <= Binary64.round_shift (Z.pos M) 53).
    { rewrite <- (round_shift_exact (2 ^ 52) 53) by lia.
      apply round_shift_mono; [lia|]. split; [lia|exact H105]. }
    assert (Hhi : Binary64.round_shift (Z.pos M) 53 <= Z.pos Binary64.mc).
    { apply Z.le_trans with (Binary64.round_shift (Z.pos Binary64.mc * 2 ^ 53) 53).
      - apply round_shift_mono; [lia|]. split; [lia|]. nia.
      - rewrite round_shift_exact by lia. lia. }
    rewrite shr_fexp_noshift; [reflexivity|].
    rewrite (Zdigits2_unique _ 53); [|lia|split; [exact Hlo|lia]].
    unfold fexp, emin, prec, emax. lia.
Qed.

Lemma mul_c_range (mx : positive) (ex : Z) :
  bounded prec emax mx ex = true ->
  0 < fst (Binary64.mul_c mx ex) /\
  (snd (Binary64.mul_c mx ex) = ex \/ snd (Binary64.mul_c mx ex) = ex + 1).
Proof.
  intros Hb. destruct (bounded_inv mx ex Hb) as (Hex & Hmx & Hnorm).
  pose proof mc_bounds as [Hc1 Hc2].
  unfold Binary64.mul_c.
  pose proof (round_shift_bounds (Z.pos mx * Z.pos Binary64.mc) 52) as [Hq _].
  pose proof (round_shift_bounds (Z.pos mx * Z.pos Binary64.mc) 53) as [Hq' _].
  destruct (_ <? 2 ^ 105) eqn:H105; bool_to_prop.
  - destruct (_ <? 2 ^ 53); cbn [fst snd]; split; try lia.
    apply Z.lt_le_trans with (Z.pos mx * Z.pos Binary64.mc / 2 ^ 52); [|exact Hq].
    apply Z.div_str_pos. nia.
  - cbn [fst snd]. split; [|lia].
    apply Z.lt_le_trans with (Z.pos mx * Z.pos Binary64.mc / 2 ^ 53); [|exact Hq'].
    apply Z.div_str_pos. lia.
Qed.

Lemma mul_c_mono (mx my : positive) (ex ey : Z) :
  bounded prec emax mx ex = true ->
  bounded prec emax my ey = true ->
  ex < ey \/ (ex = ey /\ Z.pos mx <= Z.pos my) ->
  Binary64.lex_le (Binary64.mul_c mx ex) (Binary64.mul_c my ey).
Proof.
  intros Hbx Hby Hle.
  destruct (bounded_inv mx ex Hbx) as (Hex & Hmx & Hnx).
  destruct (bounded_inv my ey Hby) as (Hey & Hmy & Hny).
  pose proof mc_bounds as [Hc1 Hc2].
  unfold Binary64.lex_le, Binary64.mul_c.
  set (Mx := Z.pos mx * Z.pos Binary64.mc).
  set (My := Z.pos my * Z.pos Binary64.mc).
  assert (HMx : 0 <= Mx) by (unfold Mx; lia).
  assert (HMy : 0 <= My) by (unfold My; lia).
  assert (Hlo53 : forall M, 2 ^ 105 <= M -> 2 ^ 52 <= Binary64.round_shift M 53).
  { intros M HM. rewrite <- (round_shift_exact (2 ^ 52) 53) by lia.
    apply round_shift_mono; [lia|]. split; [lia|exact HM]. }
  assert (Hlo52 : forall M, 2 ^ 104 <= M -> 2 ^ 52 <= Binary64.round_shift M 52).
  { intros M HM. rewrite <- (round_shift_exact (2 ^ 52) 52) by lia.
    apply round_shift_mono; [lia|]. split; [lia|exact HM]. }
  destruct Hle as [Hlt|[Heq Hm]].
  - (* a smaller exponent: y is normal *)
    assert (Hy52 : 2 ^ 52 <= Z.pos my) by lia.
    assert (HMy104 : 2 ^ 104 <= My).
    { unfold My. change (2 ^ 104) with (2 ^ 52 * 2 ^ 52). nia. }
    assert (Hdbl : Mx <= 2 * My) by (unfold Mx, My; nia).
    pose proof (round_shift_mono Mx (2 * My) (52 + 1) ltac:(lia) (conj HMx Hdbl))
      as Hmono.
    rewrite (round_shift_double My 52) in Hmono by lia.
    change (52 + 1) with 53 in Hmono.
    pose proof (Hlo52 My HMy104) as Hy.
    destruct (Mx <? 2 ^ 105) eqn:Hx105; destruct (My <? 2 ^ 105) eqn:Hy105;
      try destruct (Binary64.round_shift Mx 52 <? 2 ^ 53) eqn:Hxc;
      try destruct (Binary64.round_shift My 52 <? 2 ^ 53) eqn:Hyc;
      cbn [fst snd]; bool_to_prop; try lia.
    all: pose proof (Hlo53 My); lia.
  - (* the same exponent *)
    subst ey.
    assert (HMxy : Mx <= My) by (unfold Mx, My; nia).
    pose proof (round_shift_mono Mx My 52 ltac:(lia) (conj HMx HMxy)) as Hm52.
    pose proof (round_shift_mono Mx My 53 ltac:(lia) (conj HMx HMxy)) as Hm53.
    destruct (Mx <? 2 ^ 105) eqn:Hx105; destruct (My <? 2 ^ 105) eqn:Hy105;
      try destruct (Binary64.round_shift Mx 52 <? 2 ^ 53) eqn:Hxc;
      try destruct (Binary64.round_shift My 52 <? 2 ^ 53) eqn:Hyc;
      cbn [fst snd]; bool_to_prop; try lia.
    all: pose proof (Hlo53 My); lia.
Qed.

Lemma pack_shape (s : bool) (a : Z * Z) :
  0 < fst a ->
  (exists m, Binary64.pack s a = S754_finite s m (snd a) /\ Z.pos m = fst a
             /\ snd a <= 971)
  \/ (Binary64.pack s a = S754_infinity s /\ 971 < snd a).
Proof.
  intros Hpos. unfold Binary64.pack. destruct (fst a) as [|m|m]; try lia.
  change (emax - prec) with 971.
  destruct (snd a <=? 971) eqn:E; bool_to_prop.
  - left. exists m. auto.
  - right. auto.
Qed.

Lemma SFmul_c_finite (s : bool) (m : positive) (e : Z) :
  bounded prec emax m e = true ->
  SFmul prec emax (S754_finite s m e) Binary64.c = Binary64.pack s (Binary64.mul_c m e).
Proof.
  intros Hb. unfold Binary64.c. cbn [SFmul]. rewrite xorb_false_r.
  now apply binary_round_mul_c.
Qed.

Lemma SFleb_pack_pos (a b : Z * Z) :
  0 < fst a -> 0 < fst b -> Binary64.lex_le a b ->
  SFleb (Binary64.pack false a) (Binary64.pack false b) = true.
Proof.
  intros Ha Hb Hle.
  destruct (pack_shape false a Ha) as [(ma & -> & Hma & Hea)|[-> Hea]];
    destruct (pack_shape false b Hb) as [(mb & -> & Hmb & Heb)|[-> Heb]];
    unfold SFleb, SFcompare; try reflexivity.
  - unfold Binary64.lex_le in Hle.
    destruct (Z.compare_spec (snd a) (snd b)) as [E|E|E]; try reflexivity; try lia.
    change (Pos.compare_cont Eq ma mb) with (Pos.compare ma mb).
    destruct (Pos.compare_spec ma mb) as [F|F|F]; try reflexivity. lia.
  - unfold Binary64.lex_le in Hle. lia.
Qed.

Lemma SFleb_pack_neg (a b : Z * Z) :
  0 < fst a -> 0 < fst b -> Binary64.lex_le b a ->
  SFleb (Binary64.pack true a) (Binary64.pack true b) = true.
Proof.
  intros Ha Hb Hle.
  destruct (pack_shape true a Ha) as [(ma & -> & Hma & Hea)|[-> Hea]];
    destruct (pack_shape true b Hb) as [(mb & -> & Hmb & Heb)|[-> Heb]];
    unfold SFleb, SFcompare; try reflexivity.
  - unfold Binary64.lex_le in Hle.
    destruct (Z.compare_spec (snd a) (snd b)) as [E|E|E]; try reflexivity; try lia.
    change (Pos.compare_cont Eq ma mb) with (Pos.compare ma mb).
    destruct (Pos.compare_spec ma mb) as [F|F|F]; try reflexivity. lia.
  - unfold Binary64.lex_le in Hle. lia.
Qed.

Lemma SFleb_pack_signs (a b : Z * Z) :
  0 < fst a -> 0 < fst b ->
  SFleb (Binary64.pack true a) (Binary64.pack false b) = true.
Proof.
  intros Ha Hb.
  destruct (pack_shape true a Ha) as [(ma & -> & _)|[-> _]];
    destruct (pack_shape false b Hb) as [(mb & -> & _)|[-> _]]; reflexivity.
Qed.

Lemma SFleb_zero_pack (s : bool) (b : Z * Z) :
  0 < fst b -> SFleb (S754_zero s) (Binary64.pack false b) = true.
Proof.
  intros Hb. destruct (pack_shape false b Hb) as [(mb & -> & _)|[-> _]]; reflexivity.
Qed.

Lemma SFleb_pack_zero (s : bool) (a : Z * Z) :
  0 < fst a -> SFleb (Binary64.pack true a) (S754_zero s) = true.
Proof.
  intros Ha. destruct (pack_shape true a Ha) as [(ma & -> & _)|[-> _]]; reflexivity.
Qed.

Lemma SFleb_pack_inf (s : bool) (a : Z * Z) :
  0 < fst a -> SFleb (Binary64.pack s a) (S754_infinity false) = true.
Proof.
  intros Ha. destruct (pack_shape s a Ha) as [(ma & -> & _)|[-> _]];
    destruct s; reflexivity.
Qed.

Lemma SFleb_inf_pack (s : bool) (b : Z * Z) :
  0 < fst b -> SFleb (S754_infinity true) (Binary64.pack s b) = true.
Proof.
  intros Hb. destruct (pack_shape s b Hb) as [(mb & -> & _)|[-> _]];
    destruct s; reflexivity.
Qed.

(** multiplying by the constant keeps the order of binary64 values *)
Lemma SFmul_c_monotone (x y : spec_float) :
  valid_binary x = true -> valid_binary y = true ->
  SFltb x y = true ->
  SFleb (SFmul prec emax x Binary64.c) (SFmul prec emax y Binary64.c) = true.
Proof.
  intros Hx Hy Hlt.
  destruct x as [sx|sx| |sx mx ex]; destruct y as [sy|sy| |sy my ey];
    try discriminate Hlt; cbn [valid_binary] in Hx, Hy;
    rewrite ?SFmul_c_finite by assumption;
    repeat match goal with
    | H : bounded prec emax ?m ?e = true |- _ =>
        lazymatch goal with
        | _ : 0 < fst (Binary64.mul_c m e) |- _ => fail
        | _ => pose proof (proj1 (mul_c_range m e H))
        end
    end.
  - (* zero, infinity *)
    destruct sx, sy; try discriminate Hlt; reflexivity.
  - (* zero, finite *)
    destruct sy; [destruct sx; discriminate Hlt|].
    unfold Binary64.c. cbn [SFmul]. now apply SFleb_zero_pack.
  - (* infinity, zero *)
    destruct sx, sy; try discriminate Hlt; reflexivity.
  - (* infinity, infinity *)
    destruct sx, sy; try discriminate Hlt; reflexivity.
  - (* infinity, finite *)
    destruct sx; [|destruct sy; discriminate Hlt].
    unfold Binary64.c. cbn [SFmul xorb]. now apply SFleb_inf_pack.
  - (* finite, zero *)
    destruct sx; [|destruct sy; discriminate Hlt].
    unfold Binary64.c. cbn [SFmul]. now apply SFleb_pack_zero.
  - (* finite, infinity *)
    destruct sy; [destruct sx; discriminate Hlt|].
    unfold Binary64.c. cbn [SFmul xorb]. now apply SFleb_pack_inf.
  - (* finite, finite *)
    unfold SFltb, SFcompare in Hlt.
    destruct sx, sy; try discriminate Hlt.
    + apply SFleb_pack_neg; try assumption.
      apply mul_c_mono; try assumption.
      destruct (Z.compare_spec ex ey) as [E|E|E]; try discriminate Hlt; [|lia].
      right. split; [lia|].
      change (Pos.compare_cont Eq mx my) with (Pos.compare mx my) in Hlt.
      destruct (Pos.compare_spec mx my) as [F|F|F]; try discriminate Hlt. lia.
    + now apply SFleb_pack_signs.
    + apply SFleb_pack_pos; try assumption.
      apply mul_c_mono; try assumption.
      destruct (Z.compare_spec ex ey) as [E|E|E]; try discriminate Hlt; [|lia].
      right. split; [lia|].
      change (Pos.compare_cont Eq mx my) with (Pos.compare mx my) in Hlt.
      destruct (Pos.compare_spec mx my) as [F|F|F]; try discriminate Hlt. lia.
Qed.

Lemma Prim2SF_c : Prim2SF 0x1.3333333333333p+0 = Binary64.c.
Proof. reflexivity. Qed.

End Binary64Facts.

(** ** The cross-currency conversion *)

(** C6, as the code has it. The USD-equivalent of an India salary is the
    binary64 product of the LPA value by the constant 1.2; the division by 3
    is applied to a positive USA/India ratio, not to the USD-equivalent; and
    the conversion is monotone, though not strictly: a smaller LPA value never
    has a greater USD-equivalent. *)
Theorem india_sal_usd_monotone (a b : float) :
  (a <? b)%float = true ->
  Comparison.india_sal_usd a = (a * 0x1.3333333333333p+0)%float /\
  (forall ratio : float,
      Comparison.ppp_ratio ratio
      = if (0 <? ratio)%float then (ratio / 3)%float else 0%float) /\
  (Comparison.india_sal_usd a <=? Comparison.india_sal_usd b)%float = true.
Proof.
  intros Hab. split; [reflexivity|]. split; [reflexivity|].
  unfold Comparison.india_sal_usd.
  rewrite ltb_spec in Hab. rewrite leb_spec, !mul_spec, Prim2SF_c.
  apply SFmul_c_monotone; [apply Prim2SF_valid|apply Prim2SF_valid|exact Hab].
Qed.

(** 10 LPA and 20 LPA. *)
Lemma india_sal_usd_monotone_witness :
  (10 <? 20)%float = true /\
  (Comparison.india_sal_usd 10 <=? Comparison.india_sal_usd 20)%float = true.
Proof.
  split; [reflexivity|].
  apply (india_sal_usd_monotone 10%float 20%float). reflexivity.
Defined.

(** C6 as stated fails: 1.7 and the next double above it are distinct LPA
    values with the same USD-equivalent, 2.04. *)
Lemma india_sal_usd_not_strictly_monotone :
  (0x1.b333333333333p+0 <? 0x1.b333333333334p+0)%float = true /\
  Comparison.india_sal_usd 0x1.b333333333333p+0
  = Comparison.india_sal_usd 0x1.b333333333334p+0 /\
  (Comparison.india_sal_usd 0x1.b333333333333p+0
   <? Comparison.india_sal_usd 0x1.b333333333334p+0)%float = false.
Proof.
  repeat split; reflexivity.
Qed.

(** ** Missing values, infinities and the arithmetic of the median *)

Section FloatOrder.
Local Open Scope Z_scope.

Lemma SFcompare_refl (x : spec_float) :
  x <> S754_nan -> SFcompare x x = Some Eq.
Proof.
  destruct x as [s|s| |s m e]; intros Hx; try (destruct s; reflexivity).
  - now contradiction Hx.
  - cbn [SFcompare]. rewrite Z.compare_refl.
    change (Pos.compare_cont Eq m m) with (Pos.compare m m).
    rewrite Pos.compare_refl. now destruct s.
Qed.

Lemma is_nan_spec (x : float) : is_nan x = true <-> Prim2SF x = S754_nan.
Proof.
  unfold is_nan. rewrite FloatAxioms.eqb_spec. unfold SFeqb. split.
  - intros H. destruct (Prim2SF x) as [s|s| |s m e] eqn:E; try reflexivity;
      rewrite SFcompare_refl in H by discriminate; discriminate H.
  - intros ->. reflexivity.
Qed.

Lemma is_nan_false_spec (x : float) : is_nan x = false <-> Prim2SF x <> S754_nan.
Proof. rewrite <- is_nan_spec. now destruct (is_nan x). Qed.

Lemma leb_not_nan (a b : float) :
  (a <=? b)%float = true -> is_nan a = false /\ is_nan b = false.
Proof.
  rewrite leb_spec, !is_nan_false_spec. unfold SFleb. intros H.
  split; intros E; rewrite E in H;
    [|destruct (Prim2SF a)]; discriminate H.
Qed.

Lemma is_finite_spec (x : float) : is_finite x = Binary64.SFfinite (Prim2SF x).
Proof.
  unfold is_finite, is_infinity, is_nan.
  rewrite !FloatAxioms.eqb_spec, abs_spec.
  change (Prim2SF infinity) with (S754_infinity false).
  destruct (Prim2SF x) as [s|s| |s m e]; unfold SFeqb; cbn [SFabs Binary64.SFfinite].
  - reflexivity.
  - destruct s; reflexivity.
  - reflexivity.
  - rewrite SFcompare_refl by discriminate. reflexivity.
Qed.

Lemma between_finite (lo hi x : float) :
  is_finite lo = true -> is_finite hi = true ->
  (lo <=? x)%float = true -> (x <=? hi)%float = true ->
  is_finite x = true.
Proof.
  rewrite !is_finite_spec, !leb_spec. unfold SFleb.
  destruct (Prim2SF lo) as [sl|sl| |sl ml el]; try discriminate;
    destruct (Prim2SF hi) as [sh|sh| |sh mh eh]; try discriminate;
    destruct (Prim2SF x) as [s|s| |s m e]; try reflexivity;
    intros _ _; cbn [SFcompare];
    try (destruct s; discriminate);
    try (destruct sl; discriminate); try (destruct sh; discriminate);
    destruct s; try destruct sl; try destruct sh; try discriminate;
    intros H1 H2; try discriminate H1; try discriminate H2.
Qed.

Lemma shr_1_m_nonneg (r : shr_record) : 0 <= shr_m r -> 0 <= shr_m (shr_1 r).
Proof.
  destruct r as [m r s]. cbn [shr_m]. intros Hm.
  rewrite shr_1_nonneg by exact Hm. cbn [shr_m]. apply Z.div_pos; lia.
Qed.

Lemma shr_m_nonneg (r : shr_record) (e n : Z) :
  0 <= shr_m r -> 0 <= shr_m (fst (shr r e n)).
Proof.
  intros Hm. destruct n as [|p|p]; cbn [shr fst]; try exact Hm.
  rewrite iter_pos_nat. induction (Pos.to_nat p) as [|k IH]; [exact Hm|].
  cbn [Nat.iter nat_rect]. now apply shr_1_m_nonneg.
Qed.

Lemma shr_fexp_m_nonneg (m e : Z) (l : location) :
  0 <= m -> 0 <= shr_m (fst (shr_fexp prec emax m e l)).
Proof.
  intros Hm. unfold shr_fexp. apply shr_m_nonneg.
  destruct l as [|[| |]]; exact Hm.
Qed.

Lemma round_nearest_even_nonneg (m : Z) (l : location) :
  0 <= m -> 0 <= round_nearest_even m l.
Proof.
  intros Hm. destruct l as [|[| |]]; cbn [round_nearest_even]; try lia.
  destruct (Z.even m); lia.
Qed.

Lemma binary_round_aux_signed (s : bool) (m e : Z) (l : location) :
  0 <= m -> Binary64.SFsigned s (binary_round_aux prec emax s m e l) = true.
Proof.
  intros Hm. unfold binary_round_aux.
  pose proof (shr_fexp_m_nonneg m e l Hm) as H1.
  destruct (shr_fexp prec emax m e l) as [mrs' e']. cbn [fst] in H1.
  pose proof (shr_fexp_m_nonneg _ e' loc_Exact
                (round_nearest_even_nonneg _ (loc_of_shr_record mrs') H1)) as H2.
  destruct (shr_fexp prec emax _ e' loc_Exact) as [mrs'' e'']. cbn [fst] in H2.
  destruct (shr_m mrs'') as [|p|p]; [| |lia].
  - cbn. apply eqb_reflx.
  - destruct (e'' <=? emax - prec); cbn; apply eqb_reflx.
Qed.

Lemma SFsigned_not_nan (s : bool) (x : spec_float) :
  Binary64.SFsigned s x = true -> x <> S754_nan.
Proof. intros H ->. discriminate H. Qed.

Lemma binary_round_signed (s : bool) (m : positive) (e : Z) :
  Binary64.SFsigned s (binary_round prec emax s m e) = true.
Proof.
  unfold binary_round. destruct (shl_align m e _) as [mz ez].
  apply binary_round_aux_signed. lia.
Qed.

Lemma binary_normalize_not_nan (m e : Z) (szero : bool) :
  binary_normalize prec emax m e szero <> S754_nan.
Proof.
  destruct m as [|p|p]; cbn [binary_normalize]; [discriminate| |];
    eapply SFsigned_not_nan; apply binary_round_signed.
Qed.

Lemma SFadd_finite_not_nan (x y : spec_float) :
  Binary64.SFfinite x = true -> Binary64.SFfinite y = true -> SFadd prec emax x y <> S754_nan.
Proof.
  destruct x as [sx|sx| |sx mx ex]; try discriminate;
    destruct y as [sy|sy| |sy my ey]; try discriminate; intros _ _; cbn [SFadd];
    try discriminate.
  - destruct sx, sy; discriminate.
  - apply binary_normalize_not_nan.
Qed.

Lemma SFdiv_core_nonneg (m1 m2 : positive) (e1 e2 : Z) :
  0 <= fst (fst (SFdiv_core_binary prec emax (Z.pos m1) e1 (Z.pos m2) e2)).
Proof.
  unfold SFdiv_core_binary.
  set (s := e1 - e2 - _).
  set (m' := match s with Z.pos _ => Z.shiftl (Z.pos m1) s | 0 => Z.pos m1 | Z.neg _ => 0 end).
  assert (Hm' : 0 <= m').
  { unfold m'. destruct s; try lia. apply Z.shiftl_nonneg. lia. }
  pose proof (Z_div_mod m' (Z.pos m2) ltac:(lia)) as H.
  destruct (Z.div_eucl m' (Z.pos m2)) as [q r]. cbn [fst].
  destruct H as [Hq Hr]. nia.
Qed.

Lemma SFdiv_signed (x y : spec_float) (sx sy : bool) :
  Binary64.SFsigned sx x = true -> Binary64.SFsigned sy y = true -> Binary64.SFfinite y = true ->
  (exists m e, y = S754_finite sy m e) ->
  Binary64.SFsigned (xorb sx sy) (SFdiv prec emax x y) = true.
Proof.
  intros Hx Hy Hf (my & ey & ->).
  destruct x as [s|s| |s mx ex]; try discriminate Hx; cbn [Binary64.SFsigned] in Hx;
    apply eqb_prop in Hx; subst s; cbn [SFdiv].
  - cbn. apply eqb_reflx.
  - cbn. apply eqb_reflx.
  - pose proof (SFdiv_core_nonneg mx my ex ey) as H.
    destruct (SFdiv_core_binary prec emax (Z.pos mx) ex (Z.pos my) ey) as [[mz ez] lz].
    cbn [fst] in H. now apply binary_round_aux_signed.
Qed.

Lemma SFfinite_signed (x : spec_float) :
  Binary64.SFfinite x = true -> exists s, Binary64.SFsigned s x = true.
Proof.
  destruct x as [s|s| |s m e]; try discriminate; intros _; exists s; cbn;
    apply eqb_reflx.
Qed.

Lemma SFsigned_nonneg (x : spec_float) :
  Binary64.SFsigned false x = true -> SFleb (S754_zero false) x = true.
Proof.
  destruct x as [s|s| |s m e]; try discriminate; cbn [Binary64.SFsigned];
    destruct s; try discriminate; reflexivity.
Qed.

(** the mean of two finite binary64 values is not NaN *)
Lemma mean_not_nan (a b : float) :
  is_finite a = true -> is_finite b = true ->
  is_nan ((a + b) / 2)%float = false.
Proof.
  rewrite !is_finite_spec, is_nan_false_spec, div_spec, add_spec.
  intros Ha Hb.
  pose proof (SFadd_finite_not_nan _ _ Ha Hb) as Hsum.
  unfold SF64add in *.
  destruct (SFadd prec emax (Prim2SF a) (Prim2SF b)) as [s|s| |s m e] eqn:E;
    try (now contradiction Hsum); try discriminate.
  change (Prim2SF 2) with (S754_finite false 4503599627370496 (-51)).
  eapply SFsigned_not_nan.
  apply (SFdiv_signed (S754_finite s m e) _ s false); try reflexivity.
  - cbn. apply eqb_reflx.
  - now exists 4503599627370496%positive, (-51).
Qed.

End FloatOrder.

(** ** Bounds on binary64 results

    [binary_round_aux] rounds to nearest, so its result never exceeds a
    binary64 value that bounds the rounded quantity from above. This gives
    the range of a quotient of counts, of its product by 100 and of the
    rounding to one decimal, none of which is exact. *)

Section Binary64Bounds.
Local Open Scope Z_scope.

Lemma round_nearest_even_le_up (m : Z) (l : location) :
  m <= round_nearest_even m l <= Binary64.up m l.
Proof.
  destruct l as [|[| |]]; cbn [round_nearest_even Binary64.up]; try lia.
  destruct (Z.even m); lia.
Qed.

(** [n] one-bit shifts of a non-negative mantissa: the quotient, and the two
    sticky bits are clear exactly when nothing was lost. *)
Lemma iter_shr_1_sticky (M : Z) (r0 s0 : bool) (n : nat) :
  0 <= M ->
  let rec := Nat.iter n shr_1 {| shr_m := M; shr_r := r0; shr_s := s0 |} in
  shr_m rec = M / 2 ^ Z.of_nat n /\
  shr_r rec || shr_s rec = negb (M mod 2 ^ Z.of_nat n =? 0) || (r0 || s0).
Proof.
  intros HM. induction n as [|n IH].
  - cbn [Nat.iter nat_rect shr_m shr_r shr_s]. change (2 ^ Z.of_nat 0) with 1.
    rewrite Z.div_1_r, Z.mod_1_r. auto.
  - change (Nat.iter (S n) shr_1 ?x) with (shr_1 (Nat.iter n shr_1 x)).
    cbv zeta in IH |- *.
    destruct (Nat.iter n shr_1 _) as [m r s]. cbn [shr_m shr_r shr_s] in IH.
    destruct IH as [Hm Hs].
    assert (Hk : 0 < 2 ^ Z.of_nat n) by (apply Z.pow_pos_nonneg; lia).
    assert (Hm0 : 0 <= m) by (rewrite Hm; apply Z.div_pos; lia).
    rewrite shr_1_nonneg by exact Hm0. cbn [shr_m shr_r shr_s].
    rewrite Nat2Z.inj_succ, Z.pow_succ_r by lia.
    split.
    + rewrite Hm, Z.div_div by lia. f_equal. lia.
    + rewrite Hs, (Z.mul_comm 2), Z.rem_mul_r by lia.
      rewrite Hm, Zmod_odd.
      pose proof (Z.mod_pos_bound M (2 ^ Z.of_nat n) Hk) as Hb.
      destruct (Z.odd (M / 2 ^ Z.of_nat n));
        destruct (M mod 2 ^ Z.of_nat n =? 0) eqn:E1; bool_to_prop;
        destruct (r0 || s0); cbn [negb orb];
        rewrite ?orb_true_r; try reflexivity;
        symmetry; rewrite ?negb_true_iff, ?negb_false_iff, ?Z.eqb_eq, ?Z.eqb_neq; lia.
Qed.

(** Shifting right by [p] bits and rounding to nearest never goes above a
    multiple of [2^p] that bounds the value from above. *)
Lemma shr_round_le (M : Z) (l : location) (p : positive) (K : Z) :
  0 <= M -> Binary64.up M l <= K * 2 ^ Z.pos p ->
  let rec := SpecFloat.iter_pos shr_1 p (shr_record_of_loc M l) in
  shr_m rec = M / 2 ^ Z.pos p /\
  M / 2 ^ Z.pos p <= round_nearest_even (shr_m rec) (loc_of_shr_record rec) <= K.
Proof.
  intros HM Hup. cbv zeta. rewrite iter_pos_nat.
  assert (Hk : 0 < 2 ^ Z.pos p) by (apply Z.pow_pos_nonneg; lia).
  assert (Hrec : exists r0 s0, shr_record_of_loc M l
                   = {| shr_m := M; shr_r := r0; shr_s := s0 |}
                   /\ (r0 || s0 = false <-> l = loc_Exact)).
  { destruct l as [|[| |]]; cbn; do 2 eexists; (split; [reflexivity|]);
      split; (discriminate || reflexivity). }
  destruct Hrec as (r0 & s0 & -> & Hl).
  pose proof (iter_shr_1_sticky M r0 s0 (Pos.to_nat p) HM) as H.
  cbv zeta in H. rewrite positive_nat_Z in H.
  destruct (Nat.iter _ shr_1 _) as [m r s]. cbn [shr_m shr_r shr_s] in H.
  destruct H as [Hm Hs]. cbn [shr_m]. subst m. split; [reflexivity|].
  pose proof (Z.div_mod M (2 ^ Z.pos p) ltac:(lia)) as Hdm.
  pose proof (Z.mod_pos_bound M (2 ^ Z.pos p) Hk) as Hmod.
  set (q := M / 2 ^ Z.pos p) in *.
  pose proof (round_nearest_even_le_up q
                (loc_of_shr_record {| shr_m := q; shr_r := r; shr_s := s |})) as [Hlo Hhi].
  split; [exact Hlo|].
  destruct (r || s) eqn:Hrs.
  - (* something was lost: the value is strictly above q * 2^p *)
    assert (q * 2 ^ Z.pos p < Binary64.up M l).
    { symmetry in Hs. apply orb_true_iff in Hs. destruct Hs as [Hz|Hrs0].
      - apply negb_true_iff in Hz. bool_to_prop. destruct l; cbn [Binary64.up]; lia.
      - destruct l; [|cbn [Binary64.up]; lia].
        rewrite (proj2 Hl eq_refl) in Hrs0. discriminate Hrs0. }
    assert (q < K).
    { apply (Z.mul_lt_mono_pos_r (2 ^ Z.pos p)); lia. }
    assert (Binary64.up q (loc_of_shr_record {| shr_m := q; shr_r := r; shr_s := s |}) <= q + 1).
    { destruct (loc_of_shr_record _); cbn [Binary64.up]; lia. }
    lia.
  - apply orb_false_iff in Hrs. destruct Hrs as [-> ->].
    cbn [loc_of_shr_record Binary64.up] in Hhi.
    symmetry in Hs. apply orb_false_iff in Hs. destruct Hs as [Hz Hrs0].
    apply negb_false_iff in Hz. bool_to_prop.
    apply Hl in Hrs0. subst l. cbn [Binary64.up] in Hup.
    cbn [loc_of_shr_record round_nearest_even].
    apply (Z.mul_le_mono_pos_r _ _ (2 ^ Z.pos p)); [lia|]. lia.
Qed.

Lemma loc_of_record_of_loc (m : Z) (l : location) :
  loc_of_shr_record (shr_record_of_loc m l) = l.
Proof. destruct l as [|[| |]]; reflexivity. Qed.

Lemma shr_m_record_of_loc (m : Z) (l : location) :
  shr_m (shr_record_of_loc m l) = m.
Proof. destruct l as [|[| |]]; reflexivity. Qed.

Lemma Zdigits2_bounds (m : Z) :
  0 < m -> 0 < Zdigits2 m /\ 2 ^ (Zdigits2 m - 1) <= m < 2 ^ Zdigits2 m.
Proof.
  destruct m as [|p|p]; try lia. intros _. cbn [Zdigits2].
  split; [lia|apply digits2_pos_bounds].
Qed.

Lemma pow2_lt_inv (a b : Z) : 0 <= b -> 2 ^ a < 2 ^ b -> a < b.
Proof. intros Hb H. apply (Z.pow_lt_mono_r_iff 2); lia. Qed.

(** The second half of [binary_round_aux]: renormalising a rounded mantissa
    that a canonical bound dominates stays below the bound. *)
Lemma round_tail_le (s : bool) (m' e1 : Z) (mb : positive) (eb : Z) :
  bounded prec emax mb eb = true ->
  -1074 <= e1 <= eb ->
  0 <= m' <= Z.pos mb * 2 ^ (eb - e1) ->
  exists a : Z * Z,
    (let '(mrs'', e'') := shr_fexp prec emax m' e1 loc_Exact in
     match shr_m mrs'' with
     | 0 => S754_zero s
     | Z.pos m => if e'' <=? emax - prec then S754_finite s m e'' else S754_infinity s
     | Z.neg _ => S754_nan
     end) = Binary64.pack s a /\
    0 <= fst a /\ (fst a = 0 \/ Binary64.lex_le a (Z.pos mb, eb)).
Proof.
  intros Hb He1 Hm'.
  destruct (bounded_inv mb eb Hb) as (Heb & Hmb & _).
  assert (HP : 0 < 2 ^ (eb - e1)) by (apply Z.pow_pos_nonneg; lia).
  assert (Hshape : forall mrs e'',
             (match shr_m mrs with
              | 0 => S754_zero s
              | Z.pos m => if e'' <=? emax - prec then S754_finite s m e''
                           else S754_infinity s
              | Z.neg _ => S754_nan
              end) = Binary64.pack s (shr_m mrs, e'')).
  { intros mrs e''. unfold Binary64.pack. cbn [fst snd]. reflexivity. }
  unfold shr_fexp. cbn [shr_record_of_loc].
  destruct (Z.eq_dec m' 0) as [->|Hnz].
  - cbn [Zdigits2]. unfold fexp, emin, prec, emax.
    destruct (Z.max (0 + e1 - 53) (3 - 1024 - 53) - e1) as [|p|p] eqn:En; try lia;
      cbn [shr]; rewrite Hshape; eexists; (split; [reflexivity|]); cbn [fst shr_m];
      split; auto; lia.
  - assert (Hpos : 0 < m') by lia.
    destruct (Zdigits2_bounds m' Hpos) as (Hd & Hdlo & Hdhi).
    set (d := Zdigits2 m') in *.
    assert (Hdeb : d + e1 - 53 <= eb).
    { assert (H : 2 ^ (d - 1) < 2 ^ (53 + (eb - e1))).
      { rewrite Z.pow_add_r by lia. nia. }
      apply pow2_lt_inv in H; lia. }
    unfold fexp, emin, prec, emax.
    destruct (Z.max (d + e1 - 53) (3 - 1024 - 53) - e1) as [|p|p] eqn:En;
      cbn [shr]; rewrite Hshape; eexists; (split; [reflexivity|]); cbn [fst snd shr_m].
    + split; [lia|]. right. unfold Binary64.lex_le. cbn [fst snd].
      destruct (Z.eq_dec e1 eb) as [->|Hne]; [right|left; lia].
      rewrite Z.sub_diag in Hm'. lia.
    + rewrite iter_pos_nat.
      pose proof (iter_shr_1_sticky m' false false (Pos.to_nat p) ltac:(lia)) as H.
      cbv zeta in H. rewrite positive_nat_Z in H. destruct H as [-> _].
      assert (Hk : 0 < 2 ^ Z.pos p) by (apply Z.pow_pos_nonneg; lia).
      split; [apply Z.div_pos; lia|]. right. unfold Binary64.lex_le. cbn [fst snd].
      destruct (Z.eq_dec (e1 + Z.pos p) eb) as [Heq|Hne]; [right|left; lia].
      split; [exact Heq|].
      apply Z.div_le_upper_bound; [lia|].
      replace (eb - e1) with (Z.pos p) in Hm' by lia. lia.
    + split; [lia|]. right. unfold Binary64.lex_le. cbn [fst snd].
      destruct (Z.eq_dec e1 eb) as [->|Hne]; [right|left; lia].
      rewrite Z.sub_diag in Hm'. lia.
Qed.

(** Rounding a positive value to binary64 never goes above a binary64 value
    that bounds it from above. The value is [M * 2^E], or strictly between
    that and [(M+1) * 2^E] when the location is inexact. *)
Lemma binary_round_aux_le (s : bool) (M E : Z) (l : location)
    (mb : positive) (eb : Z) :
  0 < M ->
  bounded prec emax mb eb = true ->
  E <= fexp prec emax (Zdigits2 M + E) ->
  Binary64.up M l <= Z.pos mb * 2 ^ (eb - E) ->
  exists a : Z * Z,
    binary_round_aux prec emax s M E l = Binary64.pack s a /\
    0 <= fst a /\ (fst a = 0 \/ Binary64.lex_le a (Z.pos mb, eb)).
Proof.
  intros HM Hb Hn Hup.
  destruct (bounded_inv mb eb Hb) as (Heb & Hmb & _).
  destruct (Zdigits2_bounds M HM) as (Hd & Hdlo & Hdhi).
  assert (HupM : M <= Binary64.up M l) by (destruct l; cbn [Binary64.up]; lia).
  assert (HEeb : E <= eb).
  { destruct (Z.le_gt_cases E eb) as [H|H]; [exact H|].
    rewrite Z.pow_neg_r in Hup by lia. lia. }
  assert (HP : 0 < 2 ^ (eb - E)) by (apply Z.pow_pos_nonneg; lia).
  unfold binary_round_aux, shr_fexp at 1.
  set (d := Zdigits2 M) in *.
  assert (Hdeb : d + E - 53 <= eb).
  { assert (H : 2 ^ (d - 1) < 2 ^ (53 + (eb - E))).
    { rewrite Z.pow_add_r by lia. nia. }
    apply pow2_lt_inv in H; lia. }
  unfold fexp, emin, prec, emax in Hn |- *.
  destruct (Z.max (d + E - 53) (3 - 1024 - 53) - E) as [|p|p] eqn:En;
    [| |lia]; cbn [shr].
  - rewrite loc_of_record_of_loc, shr_m_record_of_loc.
    pose proof (round_nearest_even_le_up M l) as [Hlo Hhi].
    apply round_tail_le; [exact Hb|lia|lia].
  - assert (He1 : -1074 <= E + Z.pos p <= eb) by lia.
    assert (Hk : 0 < 2 ^ Z.pos p) by (apply Z.pow_pos_nonneg; lia).
    pose proof (shr_round_le M l p (Z.pos mb * 2 ^ (eb - (E + Z.pos p))) ltac:(lia)) as H.
    cbv zeta in H.
    destruct H as [_ [Hlo Hhi]].
    { rewrite <- Z.mul_assoc, <- Z.pow_add_r by lia.
      replace (eb - (E + Z.pos p) + Z.pos p) with (eb - E) by lia. exact Hup. }
    apply round_tail_le; [exact Hb|lia|].
    split; [|exact Hhi].
    apply Z.le_trans with (M / 2 ^ Z.pos p); [apply Z.div_pos; lia|exact Hlo].
Qed.

Lemma lex_le_of_compare (m1 m2 : positive) (e1 e2 : Z) :
  SFleb (S754_finite false m1 e1) (S754_finite false m2 e2) = true
  <-> Binary64.lex_le (Z.pos m1, e1) (Z.pos m2, e2).
Proof.
  unfold SFleb, SFcompare, Binary64.lex_le. cbn [fst snd].
  change (Pos.compare_cont Eq m1 m2) with (Pos.compare m1 m2).
  destruct (Z.compare_spec e1 e2) as [E|E|E];
    [destruct (Pos.compare_spec m1 m2) as [F|F|F]| |];
    split; intros H; try reflexivity; try discriminate H; try lia.
Qed.

Lemma below_of_leb (x : spec_float) (mb : positive) (eb : Z) :
  valid_binary x = true ->
  SFleb (S754_zero false) x = true ->
  SFleb x (S754_finite false mb eb) = true ->
  Binary64.below x mb eb.
Proof.
  intros Hv Hlo Hhi. destruct x as [s|s| |s m e].
  - left. now exists s.
  - destruct s; discriminate.
  - discriminate.
  - destruct s; [discriminate|]. right. exists m, e.
    split; [reflexivity|]. split; [exact Hv|]. now apply lex_le_of_compare.
Qed.

Lemma leb_of_below (x : spec_float) (mb : positive) (eb : Z) :
  Binary64.below x mb eb ->
  SFleb (S754_zero false) x = true /\ SFleb x (S754_finite false mb eb) = true.
Proof.
  intros [(s & ->)|(m & e & -> & _ & Hle)]; [split; reflexivity|].
  split; [reflexivity|]. now apply lex_le_of_compare.
Qed.

Lemma SFleb_pack_le (a : Z * Z) (mb : positive) (eb : Z) :
  eb <= 971 ->
  0 <= fst a -> fst a = 0 \/ Binary64.lex_le a (Z.pos mb, eb) ->
  SFleb (Binary64.pack false a) (S754_finite false mb eb) = true.
Proof.
  intros Heb H0 Hle.
  destruct (Z.eq_dec (fst a) 0) as [Hz|Hnz].
  - unfold Binary64.pack. rewrite Hz. reflexivity.
  - destruct Hle as [Hz|Hle]; [lia|].
    destruct (pack_shape false a ltac:(lia)) as [(ma & -> & Hma & Hea)|[_ Hea]].
    + apply lex_le_of_compare. unfold Binary64.lex_le in *. cbn [fst snd] in *. lia.
    + unfold Binary64.lex_le in Hle. cbn [fst snd] in Hle. lia.
Qed.

Lemma Zdigits2_ge (m d : Z) : 0 < d -> 2 ^ (d - 1) <= m -> d <= Zdigits2 m.
Proof.
  intros Hd Hm.
  assert (0 < 2 ^ (d - 1)) by (apply Z.pow_pos_nonneg; lia).
  destruct (Zdigits2_bounds m ltac:(lia)) as (Hd' & _ & Hhi).
  assert (H' : 2 ^ (d - 1) < 2 ^ Zdigits2 m) by lia.
  apply pow2_lt_inv in H'; lia.
Qed.

(** The product of a value in [0, b] by a positive normal constant [k] is at
    most [B] when [b * k = B] exactly. *)
Lemma SFmul_le (x : spec_float) (mk : positive) (ek : Z)
    (mb : positive) (eb : Z) (mB : positive) (eB : Z) :
  Binary64.below x mb eb ->
  bounded prec emax mb eb = true -> bounded prec emax mB eB = true ->
  2 ^ 52 <= Z.pos mk ->
  0 <= eB - (eb + ek) ->
  Z.pos mb * Z.pos mk = Z.pos mB * 2 ^ (eB - (eb + ek)) ->
  SFleb (SFmul prec emax x (S754_finite false mk ek)) (S754_finite false mB eB) = true.
Proof.
  intros Hx Hb HB Hk Ht Hprod.
  destruct (bounded_inv mB eB HB) as (HeB & _ & _).
  destruct Hx as [(s & ->)|(m & e & -> & Hbm & Hle)]; [reflexivity|].
  destruct (bounded_inv m e Hbm) as (He & Hm & _).
  destruct (bounded_inv mb eb Hb) as (Heb & Hmb & Hnb).
  cbn [SFmul xorb].
  destruct (binary_round_aux_le false (Z.pos (m * mk)) (e + ek) loc_Exact mB eB)
    as (a & -> & Ha0 & Hale).
  - lia.
  - exact HB.
  - assert (Hd : 53 <= Zdigits2 (Z.pos (m * mk))).
    { apply Zdigits2_ge; [lia|]. change (2 ^ (53 - 1)) with (2 ^ 52).
      rewrite Pos2Z.inj_mul. nia. }
    unfold fexp, emin, prec, emax. lia.
  - cbn [Binary64.up]. rewrite Pos2Z.inj_mul.
    set (t := eB - (eb + ek)) in *.
    assert (Ht2 : 0 < 2 ^ t) by (apply Z.pow_pos_nonneg; lia).
    unfold Binary64.lex_le in Hle. cbn [fst snd] in Hle.
    destruct Hle as [Hlt|[-> Hmm]].
    + replace (eB - (e + ek)) with (t + (eb - e)) by lia.
      rewrite Z.pow_add_r by lia.
      assert (H2 : 2 ^ 1 <= 2 ^ (eb - e)) by (apply Z.pow_le_mono_r; lia).
      change (2 ^ 1) with 2 in H2.
      assert (Hmb52 : 2 ^ 52 <= Z.pos mb) by lia.
      apply Z.le_trans with (2 * (Z.pos mb * Z.pos mk)); [nia|].
      rewrite Hprod. nia.
    + fold t. rewrite <- Hprod. nia.
  - now apply SFleb_pack_le.
Qed.

Lemma new_location_exact (n : Z) : new_location n 0 = loc_Exact.
Proof. unfold new_location. destruct (Z.even n); reflexivity. Qed.

(** The quotient of two positive normal values is at most [B] when the
    dividend is at most [B] times the divisor. *)
Lemma SFdiv_le (m1 : positive) (e1 : Z) (m2 : positive) (e2 : Z)
    (mB : positive) (eB : Z) :
  2 ^ 52 <= Z.pos m1 < 2 ^ 53 -> 2 ^ 52 <= Z.pos m2 < 2 ^ 53 ->
  -1074 <= e1 - e2 - 53 ->
  bounded prec emax mB eB = true ->
  Z.pos m1 * 2 ^ 53 <= Z.pos mB * 2 ^ (eB - (e1 - e2 - 53)) * Z.pos m2 ->
  SFleb (SFdiv prec emax (S754_finite false m1 e1) (S754_finite false m2 e2))
        (S754_finite false mB eB) = true.
Proof.
  intros Hm1 Hm2 He HB Hle.
  destruct (bounded_inv mB eB HB) as (HeB & _ & _).
  cbn [SFdiv xorb]. unfold SFdiv_core_binary.
  rewrite (Zdigits2_unique (Z.pos m1) 53), (Zdigits2_unique (Z.pos m2) 53)
    by (try lia; exact Hm1 || exact Hm2).
  unfold fexp, emin, prec, emax.
  replace (Z.min (Z.max (53 + e1 - (53 + e2) - 53) (3 - 1024 - 53)) (e1 - e2))
    with (e1 - e2 - 53) by lia.
  replace (e1 - e2 - (e1 - e2 - 53)) with 53 by lia.
  rewrite Z.shiftl_mul_pow2 by lia.
  pose proof (Z_div_mod (Z.pos m1 * 2 ^ 53) (Z.pos m2) ltac:(lia)) as Hdm.
  destruct (Z.div_eucl (Z.pos m1 * 2 ^ 53) (Z.pos m2)) as [q r].
  destruct Hdm as [Hq Hr].
  assert (Hq52 : 2 ^ 52 <= q).
  { destruct (Z.le_gt_cases (2 ^ 52) q) as [H|H]; [exact H|]. exfalso.
    assert (Z.pos m2 * q + r < Z.pos m2 * 2 ^ 52) by nia.
    assert (Z.pos m2 * 2 ^ 52 < 2 ^ 53 * 2 ^ 52) by nia.
    assert (2 ^ 52 * 2 ^ 53 <= Z.pos m1 * 2 ^ 53) by nia.
    lia. }
  destruct (binary_round_aux_le false q (e1 - e2 - 53) (new_location (Z.pos m2) r)
              mB eB) as (a & Ha & Ha0 & Hale).
  - lia.
  - exact HB.
  - assert (Hd : 53 <= Zdigits2 q) by (apply Zdigits2_ge; [lia|exact Hq52]).
    unfold fexp, emin, prec, emax. lia.
  - set (K := Z.pos mB * 2 ^ (eB - (e1 - e2 - 53))) in *.
    destruct (Z.eq_dec r 0) as [->|Hnz].
    + rewrite new_location_exact. cbn [Binary64.up]. nia.
    + assert (q < K) by nia.
      destruct (new_location _ _); cbn [Binary64.up]; lia.
  - unfold prec, emax in Ha. rewrite Ha. now apply SFleb_pack_le.
Qed.

Lemma Pos_iter_xO (p n : positive) : Z.pos (Pos.iter xO p n) = Z.pos p * 2 ^ Z.pos n.
Proof.
  rewrite Pos2Nat.inj_iter, <- (positive_nat_Z n).
  induction (Pos.to_nat n) as [|k IH]; cbn [nat_rect].
  - change (2 ^ Z.of_nat 0) with 1. lia.
  - rewrite Pos2Z.inj_xO, IH, Nat2Z.inj_succ, Z.pow_succ_r by lia. lia.
Qed.

Lemma binary_round_aux_canonical (s : bool) (m : positive) (e : Z) :
  2 ^ 52 <= Z.pos m < 2 ^ 53 -> -1074 <= e <= 971 ->
  binary_round_aux prec emax s (Z.pos m) e loc_Exact = S754_finite s m e.
Proof.
  intros Hm He.
  assert (Hf : fexp prec emax (Zdigits2 (Z.pos m) + e) = e).
  { rewrite (Zdigits2_unique (Z.pos m) 53) by (lia || exact Hm).
    unfold fexp, emin, prec, emax. lia. }
  unfold binary_round_aux. rewrite (shr_fexp_noshift _ _ Hf).
  cbn [shr_m loc_of_shr_record round_nearest_even].
  rewrite (shr_fexp_noshift _ _ Hf). cbn [shr_m].
  change (emax - prec) with 971.
  destruct (e <=? 971) eqn:E; bool_to_prop; [reflexivity|lia].
Qed.

(** An integer below [2^53] converts to binary64 exactly. *)
Lemma float64_exact (z : Z) :
  0 < z < 2 ^ 53 ->
  exists m e, Prim2SF (Numpy.float64 z) = S754_finite false m e /\
              2 ^ 52 <= Z.pos m < 2 ^ 53 /\ -52 <= e <= 0 /\
              Z.pos m = z * 2 ^ (- e).
Proof.
  intros [Hz0 Hz53]. unfold Numpy.float64.
  rewrite of_uint63_spec, Uint63.of_Z_spec.
  assert (HwB : Uint63.wB = 2 ^ 63) by reflexivity.
  rewrite Z.mod_small by (rewrite HwB; lia).
  destruct z as [|p|p]; try lia. cbn [binary_normalize]. unfold binary_round.
  pose proof (digits2_pos_bounds p) as [Hlo Hhi].
  pose proof (digits2_pos_le p 53 ltac:(lia) Hz53) as Hd53.
  set (d := Z.pos (digits2_pos p)) in *.
  assert (Hd1 : 1 <= d) by (unfold d; lia).
  assert (Hf : fexp prec emax (d + 0) = d - 53).
  { unfold fexp, emin, prec, emax. lia. }
  rewrite Hf. unfold shl_align.
  destruct (d - 53 - 0) as [|q|q] eqn:Eq; try lia.
  - assert (Hd : d = 53) by lia. rewrite Hd in Hlo, Hhi.
    rewrite binary_round_aux_canonical by ((split; [exact Hlo|lia]) || lia).
    exists p, 0. repeat split; try lia; assumption.
  - assert (Hq : Z.pos q = 53 - d) by lia.
    assert (Hm : Z.pos (Pos.iter xO p q) = Z.pos p * 2 ^ (53 - d)).
    { rewrite Pos_iter_xO, Hq. reflexivity. }
    assert (Hrange : 2 ^ 52 <= Z.pos (Pos.iter xO p q) < 2 ^ 53).
    { rewrite Hm. split.
      - replace 52 with (d - 1 + (53 - d)) by lia. rewrite Z.pow_add_r by lia.
        apply Z.mul_le_mono_nonneg_r; [apply Z.pow_nonneg; lia|exact Hlo].
      - replace 53 with (d + (53 - d)) at 2 by lia. rewrite Z.pow_add_r by lia.
        apply Z.mul_lt_mono_pos_r; [apply Z.pow_pos_nonneg; lia|exact Hhi]. }
    rewrite binary_round_aux_canonical by (exact Hrange || lia).
    exists (Pos.iter xO p q), (d - 53). repeat split; try lia.
    rewrite Hm. f_equal. f_equal. lia.
Qed.

Lemma float64_zero : Prim2SF (Numpy.float64 0) = S754_zero false.
Proof. reflexivity. Qed.

Lemma round_half_even_le (m : positive) (e hi : Z) :
  e < 0 -> 0 <= hi -> Z.pos m <= hi * 2 ^ (- e) ->
  0 <= Python.round_half_even m e <= hi.
Proof.
  intros He Hhi Hm. unfold Python.round_half_even.
  destruct (0 <=? e) eqn:E; bool_to_prop; [lia|].
  assert (Hd : 0 < 2 ^ (- e)) by (apply Z.pow_pos_nonneg; lia).
  pose proof (Z.div_mod (Z.pos m) (2 ^ (- e)) ltac:(lia)) as Hdm.
  pose proof (Z.mod_pos_bound (Z.pos m) (2 ^ (- e)) Hd) as Hr.
  set (d := 2 ^ (- e)) in *. set (q := Z.pos m / d) in *. set (r := Z.pos m mod d) in *.
  assert (Hq0 : 0 <= q) by (apply Z.div_pos; lia).
  assert (Hqhi : q <= hi) by nia.
  destruct (Z.compare_spec (2 * r) d) as [C|C|C]; try destruct (Z.even q); try lia.
  all: assert (q < hi) by nia; lia.
Qed.

Lemma SFmul_nonneg (x : spec_float) (mk : positive) (ek : Z)
    (mb : positive) (eb : Z) :
  Binary64.below x mb eb ->
  SFleb (S754_zero false) (SFmul prec emax x (S754_finite false mk ek)) = true.
Proof.
  intros [(s & ->)|(m & e & -> & _ & _)]; [reflexivity|].
  cbn [SFmul xorb]. apply SFsigned_nonneg. apply binary_round_aux_signed. lia.
Qed.

Lemma below_of_float (x hi : float) (mb : positive) (eb : Z) :
  Prim2SF hi = S754_finite false mb eb ->
  (0 <=? x)%float = true -> (x <=? hi)%float = true ->
  Binary64.below (Prim2SF x) mb eb.
Proof.
  intros Hhi H0 H1. rewrite leb_spec in H0, H1. rewrite Hhi in H1.
  apply below_of_leb; [apply Prim2SF_valid|exact H0|exact H1].
Qed.

(** A value in [0, b] times a positive normal constant [k] lies in [0, B]
    when [b * k = B] exactly. *)
Lemma mul_in_range (x k b B : float) (mk : positive) (ek : Z)
    (mb : positive) (eb : Z) (mB : positive) (eB : Z) :
  Prim2SF k = S754_finite false mk ek ->
  Prim2SF b = S754_finite false mb eb ->
  Prim2SF B = S754_finite false mB eB ->
  2 ^ 52 <= Z.pos mk ->
  0 <= eB - (eb + ek) ->
  Z.pos mb * Z.pos mk = Z.pos mB * 2 ^ (eB - (eb + ek)) ->
  (0 <=? x)%float = true -> (x <=? b)%float = true ->
  (0 <=? x * k)%float = true /\ (x * k <=? B)%float = true.
Proof.
  intros Hk Hb HB Hnorm Ht Hprod H0 H1.
  pose proof (below_of_float x b mb eb Hb H0 H1) as Hx.
  pose proof (Prim2SF_valid b) as Hvb. rewrite Hb in Hvb.
  pose proof (Prim2SF_valid B) as HvB. rewrite HB in HvB.
  rewrite !leb_spec, mul_spec, Hk, HB. change (Prim2SF 0) with (S754_zero false).
  split.
  - now apply (SFmul_nonneg _ _ _ mb eb).
  - now apply (SFmul_le _ _ _ mb eb).
Qed.

(** The quotient of two counts [c <= n] lies in [0, 1]. *)
Lemma share_in_unit (c n : Z) :
  0 <= c <= n -> 0 < n < 2 ^ 53 ->
  (0 <=? Numpy.float64 c / Numpy.float64 n)%float = true /\
  (Numpy.float64 c / Numpy.float64 n <=? 1)%float = true.
Proof.
  intros [Hc0 Hcn] [Hn0 Hn53].
  destruct (float64_exact n ltac:(lia)) as (mn & en & Hn & Hmn & Hen & Hvn).
  rewrite !leb_spec, div_spec, Hn.
  change (Prim2SF 0) with (S754_zero false).
  change (Prim2SF 1) with (S754_finite false 4503599627370496 (-52)).
  destruct (Z.eq_dec c 0) as [->|Hnz].
  - rewrite float64_zero. split; reflexivity.
  - destruct (float64_exact c ltac:(lia)) as (mc & ec & Hc & Hmc & Hec & Hvc).
    rewrite Hc. split.
    + apply SFsigned_nonneg.
      apply (SFdiv_signed _ _ false false); try reflexivity. now exists mn, en.
    + assert (HA : 0 < 2 ^ (- ec)) by (apply Z.pow_pos_nonneg; lia).
      assert (HB : 0 < 2 ^ (- en)) by (apply Z.pow_pos_nonneg; lia).
      assert (Hle : ec <= en).
      { destruct (Z.le_gt_cases ec en) as [H|H]; [exact H|]. exfalso.
        assert (H2 : 2 ^ (- en) = 2 ^ (- ec) * 2 ^ (ec - en)).
        { rewrite <- Z.pow_add_r by lia. f_equal. lia. }
        assert (H3 : 2 ^ 1 <= 2 ^ (ec - en)) by (apply Z.pow_le_mono_r; lia).
        change (2 ^ 1) with 2 in H3.
        assert (c * 2 ^ (- ec) * 2 <= n * 2 ^ (- en)).
        { rewrite H2. nia. }
        lia. }
      apply SFdiv_le; try assumption; try lia; [reflexivity|].
      replace (-52 - (ec - en - 53)) with (1 + (en - ec)) by lia.
      rewrite Z.pow_add_r by lia. change (2 ^ 1) with 2.
      assert (HD : 0 < 2 ^ (en - ec)) by (apply Z.pow_pos_nonneg; lia).
      assert (H2 : 2 ^ (- ec) = 2 ^ (en - ec) * 2 ^ (- en)).
      { rewrite <- Z.pow_add_r by lia. f_equal. lia. }
      rewrite Hvc, Hvn, H2.
      set (D := 2 ^ (en - ec)) in *. set (B := 2 ^ (- en)) in *.
      assert (c * (D * B) <= n * (D * B)) by (apply Z.mul_le_mono_nonneg_r; nia).
      change (2 ^ 53) with 9007199254740992. lia.
Qed.

(** [rint] of a value in [0, 1000] is an integer of [0, 1000]. *)
Lemma rint_in_range (x : float) :
  (0 <=? x)%float = true -> (x <=? 1000)%float = true ->
  (exists s, Prim2SF (Numpy.rint x) = S754_zero s) \/
  exists z, 0 < z <= 1000 /\ Prim2SF (Numpy.rint x) = Prim2SF (Numpy.float64 z).
Proof.
  intros H0 H1.
  pose proof (below_of_float x 1000 8796093022208000 (-43) eq_refl H0 H1) as Hx.
  unfold Numpy.rint.
  destruct Hx as [(s & Hs)|(m & e & Hs & Hb & Hle)]; rewrite Hs.
  - left. now exists s.
  - destruct (bounded_inv m e Hb) as (He & Hm & _).
    unfold Binary64.lex_le in Hle. cbn [fst snd] in Hle.
    destruct (e <? 0) eqn:E; bool_to_prop; [|lia].
    assert (Hz : 0 <= Python.round_half_even m e <= 1000).
    { apply round_half_even_le; [lia|lia|].
      destruct Hle as [Hlt|[-> Hmm]].
      - assert (2 ^ 44 <= 2 ^ (- e)) by (apply Z.pow_le_mono_r; lia). lia.
      - change (2 ^ (- -43)) with (2 ^ 43). lia. }
    destruct (Z.eq_dec (Python.round_half_even m e) 0) as [->|Hnz].
    + left. exists false. reflexivity.
    + right. exists (Python.round_half_even m e). split; [lia|reflexivity].
Qed.

(** Dividing an integer of [0, 1000] by ten gives a value in [0, 100]. *)
Lemma tenth_in_range (r : float) :
  ((exists s, Prim2SF r = S754_zero s) \/
   exists z, 0 < z <= 1000 /\ Prim2SF r = Prim2SF (Numpy.float64 z)) ->
  (0 <=? r / 10)%float = true /\ (r / 10 <=? 100)%float = true.
Proof.
  intros Hr. rewrite !leb_spec, div_spec.
  change (Prim2SF 0) with (S754_zero false).
  change (Prim2SF 10) with (S754_finite false 5629499534213120 (-49)).
  change (Prim2SF 100) with (S754_finite false 7036874417766400 (-46)).
  destruct Hr as [(s & ->)|(z & Hz & ->)]; [split; reflexivity|].
  destruct (float64_exact z ltac:(lia)) as (m & e & -> & Hm & He & Hv).
  split.
  - apply SFsigned_nonneg.
    apply (SFdiv_signed _ _ false false); try reflexivity. now eexists _, _.
  - assert (He43 : e <= -43).
    { assert (HP : 0 < 2 ^ (- e)) by (apply Z.pow_pos_nonneg; lia).
      assert (H : 2 ^ 52 < 2 ^ (10 + - e)).
      { rewrite Z.pow_add_r by lia. change (2 ^ 10) with 1024. nia. }
      apply pow2_lt_inv in H; lia. }
    apply SFdiv_le; try lia; try reflexivity.
    replace (-46 - (e - -49 - 53)) with (1 + (-43 - e)) by lia.
    rewrite Z.pow_add_r by lia. change (2 ^ 1) with 2.
    assert (H2 : 2 ^ (- e) = 2 ^ 43 * 2 ^ (-43 - e)).
    { rewrite <- Z.pow_add_r by lia. f_equal. lia. }
    assert (HP : 0 < 2 ^ (-43 - e)) by (apply Z.pow_pos_nonneg; lia).
    rewrite Hv, H2. set (P := 2 ^ (-43 - e)) in *.
    assert (z * P <= 1000 * P) by nia. lia.
Qed.

Lemma round1_in_range (x : float) :
  (0 <=? x)%float = true -> (x <=? 100)%float = true ->
  (0 <=? Numpy.round1 x)%float = true /\ (Numpy.round1 x <=? 100)%float = true.
Proof.
  intros H0 H1. unfold Numpy.round1.
  destruct (mul_in_range x 10 100 1000 _ _ _ _ _ _ eq_refl eq_refl eq_refl
              ltac:(discriminate) ltac:(discriminate) eq_refl H0 H1) as [H2 H3].
  apply tenth_in_range. now apply rint_in_range.
Qed.

Lemma pct_in_range (c n : Z) :
  0 <= c <= n -> 0 < n < 2 ^ 53 ->
  (0 <=? Numpy.float64 c / Numpy.float64 n * 100)%float = true /\
  (Numpy.float64 c / Numpy.float64 n * 100 <=? 100)%float = true.
Proof.
  intros Hc Hn. destruct (share_in_unit c n Hc Hn) as [H0 H1].
  exact (mul_in_range _ 100 1 100 _ _ _ _ _ _ eq_refl eq_refl eq_refl
           ltac:(discriminate) ltac:(discriminate) eq_refl H0 H1).
Qed.

End Binary64Bounds.

(** ** The order of binary64 values

    Apart from NaN, [<=] on binary64 values is a total preorder: it is the
    lexicographic order of [Binary64.rank]. *)

Section Binary64Order.
Local Open Scope Z_scope.

Lemma SFleb_rank (x y : spec_float) :
  x <> S754_nan -> y <> S754_nan ->
  SFleb x y = true <-> Binary64.rank_le (Binary64.rank x) (Binary64.rank y).
Proof.
  intros Hx Hy. unfold SFleb, Binary64.rank_le.
  destruct x as [sx|sx| |sx mx ex]; destruct y as [sy|sy| |sy my ey];
    try (now contradiction Hx); try (now contradiction Hy);
    cbn [SFcompare Binary64.rank];
    try destruct sx; try destruct sy; cbn [fst snd];
    try (change (Pos.compare_cont Eq mx my) with (Pos.compare mx my);
         destruct (Z.compare_spec ex ey) as [E|E|E];
         [destruct (Pos.compare_spec mx my) as [F|F|F]| |]; cbn [CompOpp]);
    split; intros H; try reflexivity; try discriminate H; try lia.
Qed.

Lemma SFleb_not_nan (x y : spec_float) :
  SFleb x y = true -> x <> S754_nan /\ y <> S754_nan.
Proof.
  unfold SFleb. intros H. split; intros E; rewrite E in H;
    [|destruct x]; discriminate H.
Qed.

Lemma SFleb_trans (x y z : spec_float) :
  SFleb x y = true -> SFleb y z = true -> SFleb x z = true.
Proof.
  intros Hxy Hyz.
  destruct (SFleb_not_nan _ _ Hxy) as [Hx Hy].
  destruct (SFleb_not_nan _ _ Hyz) as [_ Hz].
  apply SFleb_rank in Hxy; [|assumption..].
  apply SFleb_rank in Hyz; [|assumption..].
  apply SFleb_rank; [assumption..|].
  unfold Binary64.rank_le in *. lia.
Qed.

Lemma SFleb_total (x y : spec_float) :
  x <> S754_nan -> y <> S754_nan -> SFleb x y = false -> SFleb y x = true.
Proof.
  intros Hx Hy H.
  assert (Hn : ~ Binary64.rank_le (Binary64.rank x) (Binary64.rank y)).
  { rewrite <- SFleb_rank by assumption. congruence. }
  apply SFleb_rank; [assumption..|].
  unfold Binary64.rank_le in *. lia.
Qed.

Lemma float_leb_trans (a b c : float) :
  (a <=? b)%float = true -> (b <=? c)%float = true -> (a <=? c)%float = true.
Proof. rewrite !leb_spec. apply SFleb_trans. Qed.

Lemma float_leb_total (a b : float) :
  is_nan a = false -> is_nan b = false ->
  (a <=? b)%float = false -> (b <=? a)%float = true.
Proof. rewrite !is_nan_false_spec, !leb_spec. apply SFleb_total. Qed.

(** the sum of two values of [0, 100] is not NaN *)
Lemma sum_not_nan (a b : float) :
  (0 <=? a)%float = true /\ (a <=? 100)%float = true ->
  (0 <=? b)%float = true /\ (b <=? 100)%float = true ->
  is_nan (a + b)%float = false.
Proof.
  intros [Ha0 Ha1] [Hb0 Hb1].
  pose proof (between_finite 0 100 a eq_refl eq_refl Ha0 Ha1) as Ha.
  pose proof (between_finite 0 100 b eq_refl eq_refl Hb0 Hb1) as Hb.
  rewrite is_finite_spec in Ha, Hb.
  rewrite is_nan_false_spec, add_spec. now apply SFadd_finite_not_nan.
Qed.

End Binary64Order.

(** ** When the median is defined *)

Lemma insert_sorted_perm (x : float) (l : list float) :
  Permutation (Pandas.insert_sorted x l) (x :: l).
Proof.
  induction l as [|y l IH]; simpl; [reflexivity|].
  destruct (x <=? y)%float; [reflexivity|].
  rewrite IH. apply perm_swap.
Qed.

Lemma sort_values_perm (l : list float) : Permutation (Pandas.sort_values l) l.
Proof.
  induction l as [|x l IH]; simpl; [reflexivity|].
  rewrite insert_sorted_perm. now apply perm_skip.
Qed.

Lemma dropna_all (l : list float) :
  List.Forall (fun x => is_nan x = false) l -> Pandas.dropna l = l.
Proof.
  unfold Pandas.dropna. induction 1 as [|x l Hx _ IH]; simpl; [reflexivity|].
  rewrite Hx. simpl. now rewrite IH.
Qed.

Lemma is_finite_not_nan (x : float) : is_finite x = true -> is_nan x = false.
Proof.
  unfold is_finite. destruct (is_nan x); [discriminate|reflexivity].
Qed.

Lemma median_not_nan (l : list float) :
  l <> [] -> List.Forall (fun x => is_finite x = true) l ->
  is_nan (Pandas.median l) = false.
Proof.
  intros Hne Hfin. unfold Pandas.median.
  rewrite dropna_all
    by (eapply List.Forall_impl; [|exact Hfin]; intros x; apply is_finite_not_nan).
  pose proof (sort_values_perm l) as Hperm.
  set (v := Pandas.sort_values l) in *.
  assert (Hv : List.Forall (fun x => is_finite x = true) v)
    by (eapply Permutation_Forall; [symmetry; exact Hperm|exact Hfin]).
  assert (Hlen : (0 < length v)%nat).
  { rewrite (Permutation_length Hperm). destruct l; [now contradiction Hne|simpl; lia]. }
  assert (Hnth : forall i, (i < length v)%nat -> is_finite (nth i v nan) = true).
  { intros i Hi. apply (proj1 (List.Forall_forall _ v) Hv). now apply nth_In. }
  destruct (length v =? 0)%nat eqn:E0; [apply Nat.eqb_eq in E0; lia|].
  assert (Hhalf : (length v / 2 < length v)%nat) by (apply Nat.div_lt; lia).
  destruct (Nat.even (length v)).
  - apply mean_not_nan; apply Hnth; lia.
  - apply is_finite_not_nan, Hnth, Hhalf.
Qed.

Lemma pretty_N_go_not_n (x : N) (s : string) :
  (forall t, s <> String "n" t) -> forall t, pretty_N_go x s <> String "n" t.
Proof.
  revert s. induction (N.lt_wf_0 x) as [x _ IH]. intros s Hs t.
  destruct (N.eq_dec x 0%N) as [->|Hx].
  - rewrite pretty_N_go_0. apply Hs.
  - rewrite pretty_N_go_step by lia. apply IH.
    + apply N.div_lt; lia.
    + intros t' Ht. injection Ht as Hc _. revert Hc.
      unfold pretty_N_char.
      repeat match goal with
             | |- context [match ?y with _ => _ end] => destruct y
             end; discriminate.
Qed.

Lemma format_f0_nan (x : float) :
  Python.format_f0 x = "nan" <-> is_nan x = true.
Proof.
  rewrite is_nan_spec. unfold Python.format_f0.
  destruct (Prim2SF x) as [s|s| |s m e]; split; try reflexivity;
    try (intros H; discriminate H); try (destruct s; intros H; discriminate H).
  destruct s; [intros H; discriminate H|].
  cbn [String.append]. unfold pretty, pretty_N.
  destruct (decide _); [intros H; discriminate H|].
  intros H. exfalso. revert H. apply pretty_N_go_not_n. intros t Ht. discriminate Ht.
Qed.

Lemma dollar_K_nan (s : string) :
  ("$" ++ s ++ "K")%string = "$nanK" <-> s = "nan".
Proof.
  split; [|intros ->; reflexivity].
  intros H. injection H as H.
  destruct s as [|a [|b [|c [|d s]]]]; try discriminate H.
  - injection H as -> -> ->. reflexivity.
  - simpl in H. injection H as _ _ _ _ H. destruct s; discriminate H.
Qed.

Lemma view_rows_in_range (df : list App.Row) (sel : App.Selection) (r : App.Row) :
  In r (App.filtered_df df sel) ->
  (fst (App.salary_range sel) <=? App.avg_salary_k r)%float = true /\
  (App.avg_salary_k r <=? snd (App.salary_range sel))%float = true.
Proof.
  rewrite App_filtered_df_mask, filter_In, App_satisfiesb_spec.
  intros [_ [H _]]. exact H.
Qed.

Lemma view_salaries_finite (df : list App.Row) (sel : App.Selection) :
  is_finite (fst (App.salary_range sel)) = true ->
  is_finite (snd (App.salary_range sel)) = true ->
  List.Forall (fun x => is_finite x = true)
              (map App.avg_salary_k (App.filtered_df df sel)).
Proof.
  intros Hlo Hhi. apply List.Forall_map, List.Forall_forall. intros r Hr.
  destruct (view_rows_in_range df sel r Hr) as [H1 H2].
  exact (between_finite _ _ _ Hlo Hhi H1 H2).
Qed.

(** X1. The salary filter drops every row whose salary is missing: no row of
    a filtered view has a NaN salary, so the median of the view skips
    nothing. *)
Theorem view_has_no_missing_salary (df : list App.Row) (sel : App.Selection) :
  List.Forall (fun r => is_nan (App.avg_salary_k r) = false)
              (App.filtered_df df sel) /\
  Pandas.dropna (map App.avg_salary_k (App.filtered_df df sel))
  = map App.avg_salary_k (App.filtered_df df sel).
Proof.
  assert (H : List.Forall (fun r => is_nan (App.avg_salary_k r) = false)
                          (App.filtered_df df sel)).
  { apply List.Forall_forall. intros r Hr.
    destruct (view_rows_in_range df sel r Hr) as [H1 _].
    exact (proj2 (leb_not_nan _ _ H1)). }
  split; [exact H|]. apply dropna_all. now apply List.Forall_map.
Qed.

(** X2. With a finite salary range, as the slider gives, the median of a
    non-empty view is never NaN, and the "Median Salary" metric reads "$nanK"
    exactly when the view is empty. *)
Theorem median_metric_nan_iff_empty_view (df : list App.Row) (sel : App.Selection) :
  is_finite (fst (App.salary_range sel)) = true ->
  is_finite (snd (App.salary_range sel)) = true ->
  (App.filtered_df df sel <> [] ->
   is_nan (App.median_salary (App.filtered_df df sel)) = false) /\
  (App.median_salary_metric (App.filtered_df df sel) = "$nanK"
   <-> App.filtered_df df sel = []).
Proof.
  intros Hlo Hhi.
  assert (Hdef : App.filtered_df df sel <> [] ->
                 is_nan (App.median_salary (App.filtered_df df sel)) = false).
  { intros Hne. unfold App.median_salary. apply median_not_nan.
    - destruct (App.filtered_df df sel); [now contradiction Hne|discriminate].
    - now apply view_salaries_finite. }
  split; [exact Hdef|].
  unfold App.median_salary_metric. rewrite dollar_K_nan, format_f0_nan. split.
  - intros Hnan. destruct (App.filtered_df df sel) as [|r v] eqn:E; [reflexivity|].
    rewrite Hdef in Hnan by discriminate. discriminate Hnan.
  - intros ->. reflexivity.
Qed.

(** The ten-job table with seniority "Senior": a non-empty view, median 115. *)
Lemma median_metric_nan_iff_empty_view_witness :
  App.median_salary_metric (App.filtered_df Examples.ten_jobs Examples.senior_only)
  = "$nanK"
  <-> App.filtered_df Examples.ten_jobs Examples.senior_only = [].
Proof.
  apply (median_metric_nan_iff_empty_view Examples.ten_jobs Examples.senior_only);
    reflexivity.
Defined.

(** X3. "Salary by Level" shows a level only when the view has rows of that
    level, with their number; with a finite salary range the text shown is
    never "$nanK". *)
Theorem level_metric_guarded (df : list App.Row) (sel : App.Selection)
    (level : string) :
  is_finite (fst (App.salary_range sel)) = true ->
  is_finite (snd (App.salary_range sel)) = true ->
  match App.level_metric (App.filtered_df df sel) level with
  | Some (text, jobs) =>
      text <> "$nanK" /\ (0 < jobs)%nat /\
      jobs = length (List.filter (fun r => bool_decide (App.seniority r = level))
                                 (App.filtered_df df sel))
  | None =>
      forall r, In r (App.filtered_df df sel) -> App.seniority r <> level
  end.
Proof.
  intros Hlo Hhi. unfold App.level_metric.
  set (rows := List.filter _ (App.filtered_df df sel)).
  rewrite length_map.
  destruct (0 <? length rows)%nat eqn:E.
  - apply Nat.ltb_lt in E. split; [|split; [exact E|reflexivity]].
    rewrite dollar_K_nan, format_f0_nan.
    rewrite median_not_nan; [discriminate| |].
    + destruct rows; [simpl in E; lia|discriminate].
    + apply List.Forall_map, List.Forall_forall. intros r Hr.
      apply filter_In in Hr. destruct Hr as [Hr _].
      destruct (view_rows_in_range df sel r Hr) as [H1 H2].
      exact (between_finite _ _ _ Hlo Hhi H1 H2).
  - apply Nat.ltb_ge in E. intros r Hr Hlevel.
    assert (Hin : In r rows).
    { apply filter_In. split; [exact Hr|]. now apply bool_decide_eq_true. }
    destruct rows; [destruct Hin|simpl in E; lia].
Qed.

(** The ten-job table with seniority "Senior" selected, level "Senior". *)
Lemma level_metric_guarded_witness :
  match App.level_metric (App.filtered_df Examples.ten_jobs Examples.senior_only)
                         "Senior" with
  | Some (text, jobs) =>
      text <> "$nanK" /\ (0 < jobs)%nat /\
      jobs = length (List.filter (fun r => bool_decide (App.seniority r = "Senior"))
                       (App.filtered_df Examples.ten_jobs Examples.senior_only))
  | None =>
      forall r, In r (App.filtered_df Examples.ten_jobs Examples.senior_only) ->
                App.seniority r <> "Senior"
  end.
Proof.
  apply (level_metric_guarded Examples.ten_jobs Examples.senior_only "Senior");
    reflexivity.
Defined.

(** ** How the filters compose *)

Lemma filter_idem {A : Type} (p : A -> bool) (l : list A) :
  List.filter p (List.filter p l) = List.filter p l.
Proof.
  rewrite filter_filter_andb. apply List.filter_ext. intros x. now destruct (p x).
Qed.

Lemma filter_comm {A : Type} (p q : A -> bool) (l : list A) :
  List.filter q (List.filter p l) = List.filter p (List.filter q l).
Proof.
  rewrite !filter_filter_andb. apply List.filter_ext. intros x. apply andb_comm.
Qed.

Lemma filter_length_split {A : Type} (p q : A -> bool) (l : list A) :
  (forall x, p x = true -> q x = false) ->
  length (List.filter (fun x => p x || q x) l)
  = (length (List.filter p l) + length (List.filter q l))%nat.
Proof.
  intros Hpq. induction l as [|x l IH]; simpl; [reflexivity|].
  destruct (p x) eqn:Hp; simpl.
  - rewrite (Hpq x Hp). simpl. now rewrite IH.
  - destruct (q x); simpl; rewrite IH; lia.
Qed.

(** X4. Filtering an already filtered view with the same selections changes
    nothing, and two selections can be applied in either order: the filter
    engine of app.py is idempotent and commutes with itself. *)
Theorem filtered_df_idempotent_commutes
    (df : list App.Row) (sel sel' : App.Selection) :
  App.filtered_df (App.filtered_df df sel) sel = App.filtered_df df sel /\
  App.filtered_df (App.filtered_df df sel) sel'
  = App.filtered_df (App.filtered_df df sel') sel.
Proof.
  rewrite !App_filtered_df_mask. split; [apply filter_idem|apply filter_comm].
Qed.

(** X5. In the comparison dashboard the counts of disjoint category
    selections add up: selecting both lists shows as many rows as the two
    selections show separately. *)
Theorem filter_data_counts_add
    (df : list Comparison.Row) (cats1 cats2 : list string)
    (seniority_option : string) :
  (forall c, In c cats1 -> ~ In c cats2) ->
  length (Comparison.filter_data df (cats1 ++ cats2) seniority_option)
  = (length (Comparison.filter_data df cats1 seniority_option)
     + length (Comparison.filter_data df cats2 seniority_option))%nat.
Proof.
  intros Hdisj. rewrite !Comparison_filter_data_mask.
  rewrite <- filter_length_split.
  - f_equal. apply List.filter_ext. intros r.
    unfold Comparison.satisfiesb, Pandas.isin.
    rewrite <- andb_orb_distrib_l. f_equal.
    apply eq_true_iff_eq.
    rewrite orb_true_iff, !bool_decide_eq_true, !list_elem_of_In, in_app_iff.
    reflexivity.
  - intros r. unfold Comparison.satisfiesb, Pandas.isin.
    rewrite andb_true_iff, bool_decide_eq_true, list_elem_of_In.
    intros [H1 _]. apply andb_false_iff. left.
    apply bool_decide_eq_false. rewrite list_elem_of_In. now apply Hdisj.
Qed.

Lemma filter_data_counts_add_witness :
  length (Comparison.filter_data Examples.one_python_in_two
            (["Data Analyst"] ++ ["Data Engineer"]) "All")
  = (length (Comparison.filter_data Examples.one_python_in_two ["Data Analyst"] "All")
     + length (Comparison.filter_data Examples.one_python_in_two ["Data Engineer"] "All"))%nat.
Proof.
  apply (filter_data_counts_add Examples.one_python_in_two
           ["Data Analyst"] ["Data Engineer"] "All").
  intros c [<-|[]] [E|[]]. discriminate E.
Defined.

(** X6. Only the set of selected categories matters: two selections with the
    same members, in any order and with any repetition, give the same view;
    and a larger selection never shows fewer rows. *)
Theorem filter_data_depends_on_category_set
    (df : list Comparison.Row) (cats1 cats2 : list string)
    (seniority_option : string) :
  ((forall c, In c cats1 <-> In c cats2) ->
   Comparison.filter_data df cats1 seniority_option
   = Comparison.filter_data df cats2 seniority_option) /\
  ((forall c, In c cats1 -> In c cats2) ->
   (length (Comparison.filter_data df cats1 seniority_option)
    <= length (Comparison.filter_data df cats2 seniority_option))%nat /\
   forall r, In r (Comparison.filter_data df cats1 seniority_option) ->
             In r (Comparison.filter_data df cats2 seniority_option)).
Proof.
  rewrite !Comparison_filter_data_mask. split.
  - intros Hsame. apply List.filter_ext. intros r.
    unfold Comparison.satisfiesb, Pandas.isin. f_equal.
    apply bool_decide_ext. rewrite !list_elem_of_In. apply Hsame.
  - intros Hsub.
    assert (Himp : forall r, Comparison.satisfiesb cats1 seniority_option r = true ->
                             Comparison.satisfiesb cats2 seniority_option r = true).
    { intros r. unfold Comparison.satisfiesb, Pandas.isin.
      rewrite !andb_true_iff, !bool_decide_eq_true, !list_elem_of_In.
      intros [H1 H2]. split; [now apply Hsub|exact H2]. }
    split; [now apply filter_length_mono|].
    intros r. rewrite !filter_In. intros [Hr Hs]. split; [exact Hr|now apply Himp].
Qed.

(** ** Loading twice, and states kept apart *)

Lemma full_names_are_not_keys :
  map_Forall (fun _ full => App.state_mapping !! full = None) App.state_mapping.
Proof.
  apply map_Forall_to_list. vm_compute.
  repeat (apply List.Forall_cons; [reflexivity|]). apply List.Forall_nil.
Qed.

Lemma abbreviation_of_full_name :
  map_Forall
    (fun k full =>
       (list_to_map (map (fun kv => (snd kv, fst kv)) (map_to_list App.state_mapping))
          : gmap string string) !! full = Some k)
    App.state_mapping.
Proof.
  apply map_Forall_to_list. vm_compute.
  repeat (apply List.Forall_cons; [reflexivity|]). apply List.Forall_nil.
Qed.

Lemma normalised_state_stable (c : option string) :
  Pandas.fillna
    (Pandas.map_dict App.state_mapping
       (Pandas.fillna (Pandas.map_dict App.state_mapping c) c))
    (Pandas.fillna (Pandas.map_dict App.state_mapping c) c)
  = Pandas.fillna (Pandas.map_dict App.state_mapping c) c.
Proof.
  destruct c as [s|]; [|reflexivity]. cbn [Pandas.map_dict].
  destruct (App.state_mapping !! s) as [full|] eqn:E; cbn [Pandas.fillna Pandas.map_dict].
  - now rewrite (map_Forall_lookup_1 _ _ _ _ full_names_are_not_keys E).
  - now rewrite E.
Qed.

(** X7. Loading is idempotent: normalising the states of an already loaded
    table changes nothing, because no full state name is itself one of the
    abbreviations. *)
Theorem load_data_idempotent (csv : list App.Row) :
  App.load_data (App.load_data csv) = App.load_data csv.
Proof.
  unfold App.load_data. rewrite map_map. apply map_ext. intros r.
  cbn [App.seniority App.state App.avg_salary_k App.skill].
  now rewrite normalised_state_stable.
Qed.

(** X8. Loading never merges two states: rows whose raw cells hold different
    known abbreviations have different states after loading. *)
Theorem load_data_keeps_states_apart (r1 r2 : App.Row) (a b : string) :
  App.state r1 = Some a -> App.state r2 = Some b ->
  is_Some (App.state_mapping !! a) -> is_Some (App.state_mapping !! b) ->
  a <> b ->
  map App.state (App.load_data [r1]) <> map App.state (App.load_data [r2]).
Proof.
  intros H1 H2 [fa Ha] [fb Hb] Hab Heq. apply Hab.
  cbn [App.load_data map App.state] in Heq. rewrite H1, H2 in Heq.
  cbn [Pandas.map_dict] in Heq. rewrite Ha, Hb in Heq.
  cbn [Pandas.fillna] in Heq. injection Heq as <-.
  pose proof (map_Forall_lookup_1 _ _ _ _ abbreviation_of_full_name Ha) as Ia.
  pose proof (map_Forall_lookup_1 _ _ _ _ abbreviation_of_full_name Hb) as Ib.
  cbv beta in Ia, Ib. rewrite Ia in Ib. now injection Ib.
Qed.

(** A Texas row and an Ohio row. *)
Lemma load_data_keeps_states_apart_witness :
  map App.state (App.load_data [App.mkRow "Senior" (Some "TX") 100%float (fun _ => false)])
  <> map App.state (App.load_data [App.mkRow "Junior" (Some "OH") 60%float (fun _ => false)]).
Proof.
  apply (load_data_keeps_states_apart
           (App.mkRow "Senior" (Some "TX") 100%float (fun _ => false))
           (App.mkRow "Junior" (Some "OH") 60%float (fun _ => false)) "TX" "OH");
    first [reflexivity | discriminate | (eexists; vm_compute; reflexivity)].
Defined.

(** ** The skills tables *)

Section SortedDesc.
Context {K V : Type} (leb : V -> V -> bool) (good : V -> Prop).
Hypothesis leb_total :
  forall a b, good a -> good b -> leb a b = false -> leb b a = true.

Let above (x y : K * V) : Prop := leb (snd y) (snd x) = true.

Lemma insert_desc_sorted (x : K * V) (l : list (K * V)) :
  good (snd x) -> List.Forall (fun y => good (snd y)) l ->
  Sorted above l -> Sorted above (Python.insert_desc leb x l).
Proof.
  intros Hx Hl Hs. induction Hs as [|y l Hs IH Hhd]; simpl.
  - repeat constructor.
  - apply List.Forall_cons_iff in Hl. destruct Hl as [Hy Hl].
    destruct (leb (snd y) (snd x)) eqn:E.
    + constructor; [now constructor|]. constructor. exact E.
    + constructor; [now apply IH|].
      destruct l as [|z l]; simpl.
      * constructor. now apply leb_total.
      * destruct (leb (snd z) (snd x)); constructor.
        -- now apply leb_total.
        -- now inversion Hhd.
Qed.

Lemma insert_desc_Forall (P : K * V -> Prop) (x : K * V) (l : list (K * V)) :
  P x -> List.Forall P l -> List.Forall P (Python.insert_desc leb x l).
Proof.
  intros Hx Hl. induction Hl as [|y l Hy Hl IH]; simpl.
  - now constructor.
  - destruct (leb (snd y) (snd x)); repeat constructor; assumption.
Qed.

Lemma sorted_desc_Forall (P : K * V -> Prop) (l : list (K * V)) :
  List.Forall P l -> List.Forall P (Python.sorted_desc leb l).
Proof.
  induction 1 as [|x l Hx Hl IH]; simpl; [constructor|].
  now apply insert_desc_Forall.
Qed.

Lemma sorted_desc_sorted (l : list (K * V)) :
  List.Forall (fun y => good (snd y)) l -> Sorted above (Python.sorted_desc leb l).
Proof.
  induction 1 as [|x l Hx Hl IH]; simpl; [constructor|].
  apply insert_desc_sorted; [exact Hx| |exact IH].
  now apply sorted_desc_Forall.
Qed.
End SortedDesc.

Lemma StronglySorted_firstn_skipn {A : Type} (R : A -> A -> Prop) (n : nat)
    (l : list A) (a b : A) :
  StronglySorted R l -> In a (firstn n l) -> In b (skipn n l) -> R a b.
Proof.
  intros Hs. revert n. induction Hs as [|x l Hs IH Hx]; intros [|n]; simpl;
    try tauto.
  intros [<-|Ha] Hb.
  - rewrite List.Forall_forall in Hx. apply Hx.
    rewrite <- (firstn_skipn n l). apply in_or_app. now right.
  - now apply (IH n).
Qed.

Lemma firstn_Sorted {A : Type} (R : A -> A -> Prop) (n : nat) (l : list A) :
  Sorted R l -> Sorted R (firstn n l).
Proof.
  intros H. revert n. induction H as [|x l Hl IH Hhd]; intros [|n]; simpl;
    try constructor.
  - apply IH.
  - destruct Hhd as [|y l' Hxy]; destruct n; simpl; constructor. exact Hxy.
Qed.

Lemma firstn_NoDup {A : Type} (n : nat) (l : list A) :
  List.NoDup l -> List.NoDup (firstn n l).
Proof.
  intros H. revert n. induction H as [|x l Hx Hl IH]; intros [|n]; simpl;
    try apply List.NoDup_nil.
  apply List.NoDup_cons; [|apply IH].
  intros Hin. apply Hx. eapply firstn_subset. exact Hin.
Qed.

Lemma Sorted_map {A B : Type} (R : B -> B -> Prop) (g : A -> B) (l : list A) :
  Sorted (fun a b => R (g a) (g b)) l -> Sorted R (map g l).
Proof.
  induction 1 as [|x l Hl IH Hhd]; simpl; constructor; [exact IH|].
  destruct Hhd; simpl; constructor. assumption.
Qed.

Section DictRoundTrip.
Context {V : Type}.

Lemma dict_get_set_same (k : string) (v dflt : V) (d : list (string * V)) :
  Python.dict_get (Python.dict_set k v d) k dflt = v.
Proof.
  induction d as [|[k' v'] d IH]; simpl.
  - now rewrite bool_decide_eq_true_2.
  - destruct (bool_decide (k' = k)) eqn:E; simpl.
    + now rewrite bool_decide_eq_true_2.
    + now rewrite E.
Qed.

Lemma dict_get_set_other (k k' : string) (v dflt : V) (d : list (string * V)) :
  k' <> k ->
  Python.dict_get (Python.dict_set k v d) k' dflt = Python.dict_get d k' dflt.
Proof.
  intros Hne. induction d as [|[k0 v0] d IH]; simpl.
  - now rewrite bool_decide_eq_false_2 by congruence.
  - destruct (bool_decide (k0 = k)) eqn:E; simpl.
    + apply bool_decide_eq_true in E. subst k0.
      now rewrite !bool_decide_eq_false_2 by congruence.
    + now rewrite IH.
Qed.

Lemma dict_set_NoDup (k : string) (v : V) (d : list (string * V)) :
  List.NoDup (map fst d) -> List.NoDup (map fst (Python.dict_set k v d)).
Proof.
  induction d as [|[k' v'] d IH]; simpl; intros Hnd.
  - apply List.NoDup_cons; [intros []|apply List.NoDup_nil].
  - apply List.NoDup_cons_iff in Hnd. destruct Hnd as [Hk' Hd].
    destruct (bool_decide (k' = k)) eqn:E; simpl.
    + apply bool_decide_eq_true in E. subst k'. now apply List.NoDup_cons.
    + apply bool_decide_eq_false in E. apply List.NoDup_cons; [|now apply IH].
      rewrite dict_set_keys. intros [Hk|Hin]; [congruence|contradiction].
Qed.
End DictRoundTrip.

Lemma skill_counts_NoDup (columns : list string) (view : list App.Row) :
  List.NoDup (map fst (App.skill_counts columns view)).
Proof.
  unfold App.skill_counts. generalize (App.skill_cols columns) as cols.
  assert (Hgen : forall cols (acc : list (string * nat)),
             List.NoDup (map fst acc) ->
             List.NoDup (map fst
               (fold_left
                  (fun skill_counts col =>
                     let count := Pandas.flag_sum (fun r => App.skill r col) view in
                     if (0 <? count)%nat
                     then Python.dict_set (Python.skill_name col) count skill_counts
                     else skill_counts) cols acc))).
  { induction cols as [|col cols IH]; intros acc Hacc; simpl; [exact Hacc|].
    apply IH. destruct (0 <? _)%nat; [now apply dict_set_NoDup|exact Hacc]. }
  intros cols. apply Hgen. apply List.NoDup_nil.
Qed.

(** X9. The skills table of app.py has at most 15 rows, each a different
    skill name, each with a count between 1 and the number of rows of the
    view, in non-increasing order of count; on an empty view the table is
    empty, so the division by the row count is never evaluated with 0. *)
Theorem top_skills_invariants (columns : list string) (view : list App.Row) :
  (length (App.top_skills columns view) <= 15)%nat /\
  List.NoDup (map fst (App.top_skills columns view)) /\
  List.Forall (fun kv => (0 < snd kv <= length view)%nat)
              (App.top_skills columns view) /\
  Sorted (fun a b => (snd b <= snd a)%nat) (App.top_skills columns view) /\
  map (fun row => fst row) (App.skills_df columns view) = App.top_skills columns view /\
  App.skills_df columns [] = [].
Proof.
  assert (Hb : forall v, List.Forall (fun kv => (0 < snd kv <= length v)%nat)
                                     (App.top_skills columns v)).
  { intros v. unfold App.top_skills. apply firstn_Forall.
    eapply Permutation_Forall; [symmetry; apply sorted_desc_perm|].
    apply skill_counts_bounded. }
  split; [apply firstn_le_length|]. split; [|split; [apply Hb|split; [|split]]].
  - unfold App.top_skills. rewrite <- firstn_map. apply firstn_NoDup.
    eapply Permutation_NoDup;
      [symmetry; apply Permutation_map, sorted_desc_perm|].
    apply skill_counts_NoDup.
  - unfold App.top_skills. apply firstn_Sorted.
    eapply Sorted_ind with (P := fun l => Sorted (fun a b : string * nat => (snd b <= snd a)%nat) l);
      [constructor| |apply (sorted_desc_sorted Nat.leb (fun _ => True))].
    + intros a l _ IH Hhd. constructor; [exact IH|].
      destruct Hhd as [|b l' Hab]; constructor. now apply Nat.leb_le.
    + intros a b _ _ Hab. apply Nat.leb_gt in Hab. apply Nat.leb_le. lia.
    + apply List.Forall_forall. intros kv _. exact I.
  - unfold App.skills_df. rewrite map_map.
    erewrite map_ext; [apply map_id|]. now intros [k c].
  - unfold App.skills_df. specialize (Hb []).
    destruct (App.top_skills columns []) as [|[k c] l]; [reflexivity|].
    inversion Hb as [|? ? Hc _]. simpl in Hc. lia.
Qed.

(** ** Skill prevalence *)

Lemma percentage_in_range (count : nat) (view : list App.Row) :
  (count <= length view)%nat -> (0 < length view)%nat ->
  (Z.of_nat (length view) < 2 ^ 53)%Z ->
  (0 <=? App.percentage count view)%float = true /\
  (App.percentage count view <=? 100)%float = true.
Proof.
  intros Hle Hpos Hlen. unfold App.percentage. apply pct_in_range; lia.
Qed.

Lemma skill_pct_in_range (col : string) (df_filtered : list Comparison.Row) :
  (Z.of_nat (length df_filtered) < 2 ^ 53)%Z ->
  (0 <=? Comparison.skill_pct col df_filtered)%float = true /\
  (Comparison.skill_pct col df_filtered <=? 100)%float = true.
Proof.
  intros Hlen. unfold Comparison.skill_pct.
  destruct (0 <? length df_filtered)%nat eqn:E; [|split; reflexivity].
  apply Nat.ltb_lt in E.
  pose proof (flag_sum_le (fun r => Comparison.skill r col) df_filtered).
  apply pct_in_range; lia.
Qed.

(** C7. Every percentage the dashboards compute from a flag count lies in
    [0, 100], as a float64 value computed in float64: the Percentage column of
    [skills_df] in app.py, rounded to one decimal; the percentage of each of
    the top skills before the rounding; and [usa_pct] / [india_pct] in
    app_comparison.py. The views have fewer than [2^53] rows, the counts that
    float64 represents exactly. *)
Theorem skill_percentage_in_range
    (columns : list string) (view : list App.Row)
    (col : string) (df_filtered : list Comparison.Row) :
  (Z.of_nat (length view) < 2 ^ 53)%Z ->
  (Z.of_nat (length df_filtered) < 2 ^ 53)%Z ->
  List.Forall (fun row => (0 <=? snd row)%float = true /\
                          (snd row <=? 100)%float = true)
              (App.skills_df columns view) /\
  List.Forall (fun kv => (0 <=? App.percentage (snd kv) view)%float = true /\
                         (App.percentage (snd kv) view <=? 100)%float = true)
              (App.top_skills columns view) /\
  ((0 <=? Comparison.skill_pct col df_filtered)%float = true /\
   (Comparison.skill_pct col df_filtered <=? 100)%float = true).
Proof.
  intros Hview Hdf.
  assert (Htop : List.Forall
            (fun kv => (0 <=? App.percentage (snd kv) view)%float = true /\
                       (App.percentage (snd kv) view <=? 100)%float = true)
            (App.top_skills columns view)).
  { unfold App.top_skills. apply firstn_Forall.
    eapply Permutation_Forall; [symmetry; apply sorted_desc_perm|].
    eapply List.Forall_impl; [|apply skill_counts_bounded].
    intros [name count] [Hpos Hle]; cbn [snd] in *.
    apply percentage_in_range; lia. }
  split; [|split; [exact Htop|now apply skill_pct_in_range]].
  unfold App.skills_df. apply List.Forall_map.
  eapply List.Forall_impl; [|exact Htop].
  intros [name count] [H0 H1]; cbn [snd] in *. now apply round1_in_range.
Qed.

(** 23 Python rows of 80 in app.py, one of twenty in app_comparison.py. *)
Lemma skill_percentage_in_range_witness :
  (Z.of_nat (length Examples.python_23_of_80) < 2 ^ 53)%Z /\
  (Z.of_nat (length Examples.one_python_in_twenty) < 2 ^ 53)%Z /\
  List.Forall (fun row => (0 <=? snd row)%float = true /\
                          (snd row <=? 100)%float = true)
              (App.skills_df ["skill_python"] Examples.python_23_of_80) /\
  ((0 <=? Comparison.skill_pct "skill_python" Examples.one_python_in_twenty)%float
   = true /\
   (Comparison.skill_pct "skill_python" Examples.one_python_in_twenty <=? 100)%float
   = true).
Proof.
  split; [reflexivity|]. split; [reflexivity|].
  pose proof (skill_percentage_in_range ["skill_python"] Examples.python_23_of_80
                "skill_python" Examples.one_python_in_twenty
                eq_refl eq_refl) as H.
  exact (conj (proj1 H) (proj2 (proj2 H))).
Defined.

(** The float64 arithmetic at work: 23 rows of 80 are 28.75 %, the quotient
    times 100 is 28.749999999999996 in float64, and the table shows 28.7. *)
Lemma skills_df_23_of_80 :
  App.percentage 23 Examples.python_23_of_80 = 0x1.cbfffffffffffp+4%float /\
  App.skills_df ["skill_python"] Examples.python_23_of_80
  = [("Python", 23%nat, 0x1.cb33333333333p+4%float)].
Proof. split; vm_compute; reflexivity. Qed.

(** ** The cross-dataset skill comparison *)

Lemma above_threshold_spec (usa_pct india_pct : float) :
  Comparison.above_threshold usa_pct india_pct = true
  <-> (5 <? usa_pct)%float = true \/ (5 <? india_pct)%float = true.
Proof. unfold Comparison.above_threshold. apply orb_true_iff. Qed.

Section SkillDicts.
Variables (df_usa_filtered df_india_filtered : list Comparison.Row).

Let step := Comparison.skill_step df_usa_filtered df_india_filtered.

Let passes (col : string) : Prop :=
  (5 <? Comparison.skill_pct col df_usa_filtered)%float = true \/
  (5 <? Comparison.skill_pct col df_india_filtered)%float = true.

Let in_range (kv : string * float) : Prop :=
  (0 <=? snd kv)%float = true /\ (snd kv <=? 100)%float = true.

Lemma fold_step_keys (cols : list string)
    (acc : list (string * float) * list (string * float)) (name : string) :
  In name (map fst (fst (fold_left step cols acc)))
  <-> In name (map fst (fst acc))
      \/ exists col, In col cols /\ Python.skill_name col = name /\ passes col.
Proof.
  unfold passes, step.
  revert acc. induction cols as [|col cols IH]; intros [u i]; simpl.
  - split; [tauto|]. intros [H|(col & [] & _)]. exact H.
  - rewrite IH.
    destruct (Comparison.above_threshold _ _) eqn:E; simpl.
    + apply above_threshold_spec in E. rewrite dict_set_keys. split.
      * intros [[->|H]|(c & Hc & Hn & Hp)].
        -- right. exists col. tauto.
        -- now left.
        -- right. exists c. tauto.
      * intros [H|(c & [->|Hc] & Hn & Hp)].
        -- left. now right.
        -- left. left. now symmetry.
        -- right. exists c. tauto.
    + assert (Hno : ~ ((5 <? Comparison.skill_pct col df_usa_filtered)%float = true \/
                       (5 <? Comparison.skill_pct col df_india_filtered)%float = true)).
      { rewrite <- above_threshold_spec, E. discriminate. }
      split.
      * intros [H|(c & Hc & Hn & Hp)]; [now left|]. right. exists c. tauto.
      * intros [H|(c & [->|Hc] & Hn & Hp)]; [now left|tauto|].
        right. exists c. tauto.
Qed.

Lemma dict_set_same_keys (k : string) (v1 v2 : float)
    (d1 d2 : list (string * float)) :
  map fst d1 = map fst d2 ->
  map fst (Python.dict_set k v1 d1) = map fst (Python.dict_set k v2 d2).
Proof.
  revert d2. induction d1 as [|[k1 x1] d1 IH]; intros [|[k2 x2] d2] H;
    try discriminate H; simpl; [reflexivity|].
  simpl in H. injection H as -> H.
  destruct (bool_decide (k2 = k)); simpl; [now rewrite H|].
  now rewrite (IH d2 H).
Qed.

Lemma fold_step_same_keys (cols : list string)
    (acc : list (string * float) * list (string * float)) :
  map fst (fst acc) = map fst (snd acc) ->
  map fst (fst (fold_left step cols acc)) = map fst (snd (fold_left step cols acc)).
Proof.
  unfold step.
  revert acc. induction cols as [|col cols IH]; intros [u i] H; simpl; [exact H|].
  apply IH. destruct (Comparison.above_threshold _ _); simpl; [|exact H].
  now apply dict_set_same_keys.
Qed.

Lemma skill_dicts_fold (cols : list string) :
  Comparison.skill_dicts cols df_usa_filtered df_india_filtered
  = fold_left step cols ([], []).
Proof. reflexivity. Qed.

(** every value stored in the two dictionaries lies in [0, 100] *)
Lemma fold_step_in_range (cols : list string)
    (acc : list (string * float) * list (string * float)) :
  (Z.of_nat (length df_usa_filtered) < 2 ^ 53)%Z ->
  (Z.of_nat (length df_india_filtered) < 2 ^ 53)%Z ->
  List.Forall in_range (fst acc) /\ List.Forall in_range (snd acc) ->
  List.Forall in_range (fst (fold_left step cols acc)) /\
  List.Forall in_range (snd (fold_left step cols acc)).
Proof.
  intros Hu Hi. unfold step.
  revert acc. induction cols as [|col cols IH]; intros [u i] Hacc; simpl;
    [exact Hacc|].
  apply IH. destruct (Comparison.above_threshold _ _); [|exact Hacc].
  cbn [fst snd] in *. destruct Hacc as [Hau Hai].
  split; (apply dict_set_Forall; [|assumption]); unfold in_range; cbn [snd];
    now apply skill_pct_in_range.
Qed.

End SkillDicts.

Lemma dict_get_Forall {V : Type} (P : V -> Prop) (d : list (string * V))
    (k : string) (dflt : V) :
  P dflt -> List.Forall (fun kv => P (snd kv)) d -> P (Python.dict_get d k dflt).
Proof.
  intros Hd Hall. induction Hall as [|[k' v'] d Hkv Hall IH]; simpl; [exact Hd|].
  destruct (bool_decide (k' = k)); [exact Hkv|exact IH].
Qed.

Lemma combined_skills_keys (keys : list string) (u i : list (string * float)) :
  map fst (Comparison.combined_skills keys u i) = keys.
Proof.
  unfold Comparison.combined_skills. rewrite map_map. simpl. apply map_id.
Qed.

Lemma combined_pairs (keys : list string) (u i : list (string * float)) :
  List.Forall (fun kv => snd kv = Comparison.combined_value u i (fst kv))
              (Comparison.combined_skills keys u i).
Proof.
  unfold Comparison.combined_skills. apply List.Forall_map, List.Forall_forall.
  intros k _. reflexivity.
Qed.

Section ComparisonChart.
Variable common_skill_cols : list string.
Variables (df_usa_filtered df_india_filtered : list Comparison.Row).
Variable keys : list string.
Hypothesis usa_rows : (Z.of_nat (length df_usa_filtered) < 2 ^ 53)%Z.
Hypothesis india_rows : (Z.of_nat (length df_india_filtered) < 2 ^ 53)%Z.

Let u := Comparison.usa_skills common_skill_cols df_usa_filtered df_india_filtered.
Let i := Comparison.india_skills common_skill_cols df_usa_filtered df_india_filtered.
Let ranked := Python.sorted_desc PrimFloat.leb (Comparison.combined_skills keys u i).
Let above (x y : string * float) : Prop := (snd y <=? snd x)%float = true.

(** no sum of two bars is NaN *)
Lemma combined_value_not_nan (k : string) :
  is_nan (Comparison.combined_value u i k) = false.
Proof.
  destruct (fold_step_in_range df_usa_filtered df_india_filtered
              common_skill_cols ([], []) usa_rows india_rows
              (conj (List.Forall_nil _) (List.Forall_nil _))) as [Hu Hi].
  unfold Comparison.combined_value.
  apply sum_not_nan;
    apply (dict_get_Forall
             (fun x => (0 <=? x)%float = true /\ (x <=? 100)%float = true));
    try (split; reflexivity); assumption.
Qed.

Lemma ranked_sorted : StronglySorted above ranked.
Proof.
  apply Sorted_StronglySorted.
  - intros x y z Hxy Hyz. unfold above in *. eapply float_leb_trans; eassumption.
  - unfold ranked, above.
    apply (sorted_desc_sorted PrimFloat.leb (fun x => is_nan x = false)).
    + intros a b. apply float_leb_total.
    + unfold Comparison.combined_skills. apply List.Forall_map, List.Forall_forall.
      intros k _. apply combined_value_not_nan.
Qed.

Lemma ranked_pairs :
  List.Forall (fun kv => snd kv = Comparison.combined_value u i (fst kv)) ranked.
Proof.
  unfold ranked. eapply Permutation_Forall; [symmetry; apply sorted_desc_perm|].
  apply combined_pairs.
Qed.

Lemma ranked_keys : Permutation (map fst ranked) keys.
Proof.
  unfold ranked. rewrite (sorted_desc_perm PrimFloat.leb).
  now rewrite combined_skills_keys.
Qed.

Lemma shown_skills_ranked :
  Comparison.shown_skills common_skill_cols df_usa_filtered df_india_filtered keys
  = map fst (firstn 15 ranked).
Proof. reflexivity. Qed.

(** a kept skill that is not shown does not outrank a shown one *)
Lemma shown_skills_largest (a b : string) :
  In a (map fst (firstn 15 ranked)) -> In b keys ->
  ~ In b (map fst (firstn 15 ranked)) ->
  (Comparison.combined_value u i b <=? Comparison.combined_value u i a)%float = true.
Proof.
  intros Ha Hb Hnb.
  apply in_map_iff in Ha. destruct Ha as ([a' va] & Hfa & Ha). cbn [fst] in Hfa.
  subst a'.
  apply (Permutation_in _ (Permutation_sym ranked_keys)) in Hb.
  apply in_map_iff in Hb. destruct Hb as ([b' vb] & Hfb & Hb). cbn [fst] in Hfb.
  subst b'.
  assert (Hrest : In (b, vb) (skipn 15 ranked)).
  { rewrite <- (firstn_skipn 15 ranked) in Hb. apply in_app_or in Hb.
    destruct Hb as [Hb|Hb]; [|exact Hb].
    exfalso. apply Hnb. apply in_map_iff. now exists (b, vb). }
  pose proof (StronglySorted_firstn_skipn above 15 ranked _ _ ranked_sorted Ha Hrest)
    as Hab.
  pose proof ranked_pairs as Hp. rewrite List.Forall_forall in Hp.
  pose proof (Hp _ (firstn_subset _ _ _ Ha)) as Hva.
  assert (Hb' : In (b, vb) ranked).
  { rewrite <- (firstn_skipn 15 ranked). apply in_or_app. now right. }
  pose proof (Hp _ Hb') as Hvb.
  unfold above in Hab. cbn [fst snd] in *. now rewrite <- Hva, <- Hvb.
Qed.

End ComparisonChart.

Section ComparisonDicts.
Variables (df_usa_filtered df_india_filtered : list Comparison.Row).
Variable all_cols : list string.

Let step := Comparison.skill_step df_usa_filtered df_india_filtered.

(** Each key of the USA dictionary holds, in both dictionaries, the
    prevalences of one column that passed the threshold. *)
Let from_one_column (acc : list (string * float) * list (string * float)) : Prop :=
  forall k, In k (map fst (fst acc)) ->
    exists col, In col all_cols /\ Python.skill_name col = k /\
      Python.dict_get (fst acc) k 0%float = Comparison.skill_pct col df_usa_filtered /\
      Python.dict_get (snd acc) k 0%float = Comparison.skill_pct col df_india_filtered /\
      Comparison.above_threshold (Comparison.skill_pct col df_usa_filtered)
                                 (Comparison.skill_pct col df_india_filtered) = true.

Lemma fold_step_from_one_column (cols : list string)
    (acc : list (string * float) * list (string * float)) :
  (forall c, In c cols -> In c all_cols) ->
  from_one_column acc -> from_one_column (fold_left step cols acc).
Proof.
  unfold from_one_column, step.
  revert acc. induction cols as [|col cols IH]; intros [u i] Hsub Hacc; simpl;
    [exact Hacc|].
  apply IH; [intros c Hc; apply Hsub; now right|].
  destruct (Comparison.above_threshold _ _) eqn:E; [|exact Hacc].
  cbn [fst snd] in *. intros k Hk.
  destruct (decide (k = Python.skill_name col)) as [->|Hne].
  - exists col. rewrite !dict_get_set_same.
    split; [apply Hsub; now left|]. auto.
  - apply dict_set_keys in Hk. destruct Hk as [Hk|Hk]; [contradiction|].
    destruct (Hacc k Hk) as (c & Hc & Hn & Hu & Hi & Hp).
    exists c. rewrite !dict_get_set_other by exact Hne. auto.
Qed.

Lemma fold_step_NoDup (cols : list string)
    (acc : list (string * float) * list (string * float)) :
  List.NoDup (map fst (fst acc)) ->
  List.NoDup (map fst (fst (fold_left step cols acc))).
Proof.
  unfold step. revert acc.
  induction cols as [|col cols IH]; intros [u i] Hacc; simpl; [exact Hacc|].
  apply IH. destruct (Comparison.above_threshold _ _); simpl; [|exact Hacc].
  now apply dict_set_NoDup.
Qed.

Lemma fold_step_nothing_passes (cols : list string)
    (acc : list (string * float) * list (string * float)) :
  (forall col, In col cols ->
     Comparison.above_threshold (Comparison.skill_pct col df_usa_filtered)
                                (Comparison.skill_pct col df_india_filtered) = false) ->
  fold_left step cols acc = acc.
Proof.
  unfold step. revert acc.
  induction cols as [|col cols IH]; intros [u i] Hno; simpl; [reflexivity|].
  rewrite (Hno col) by now left. apply IH. intros c Hc. apply Hno. now right.
Qed.

End ComparisonDicts.

(** C5, as the code has it. A skill enters the comparison exactly when some
    common flag column bearing its name has a prevalence strictly above 5 in
    the filtered USA view or in the filtered India view (each view on its
    own, not their sum; the prevalences are the float64 values the code
    computes); both dictionaries then hold the same skills. Of those the
    chart shows fifteen, or all of them when they are fewer, each once, and
    they are the ones with the largest sum of the two prevalences: no kept
    skill that is left out has a greater sum than a skill that is shown.
    [keys] is any order of iteration of the key set; the views have fewer
    than [2^53] rows. *)
Theorem comparison_skill_threshold
    (common_skill_cols : list string)
    (df_usa_filtered df_india_filtered : list Comparison.Row)
    (keys : list string) :
  Permutation keys
    (map fst (Comparison.usa_skills common_skill_cols df_usa_filtered
                                    df_india_filtered)) ->
  (Z.of_nat (length df_usa_filtered) < 2 ^ 53)%Z ->
  (Z.of_nat (length df_india_filtered) < 2 ^ 53)%Z ->
  (forall name,
      In name keys <->
      exists col, In col common_skill_cols /\ Python.skill_name col = name /\
                  ((5 <? Comparison.skill_pct col df_usa_filtered)%float = true \/
                   (5 <? Comparison.skill_pct col df_india_filtered)%float = true)) /\
  map fst (Comparison.india_skills common_skill_cols df_usa_filtered
                                   df_india_filtered)
  = map fst (Comparison.usa_skills common_skill_cols df_usa_filtered
                                   df_india_filtered) /\
  (forall name,
      In name (Comparison.shown_skills common_skill_cols df_usa_filtered
                                       df_india_filtered keys) ->
      In name keys) /\
  length (Comparison.shown_skills common_skill_cols df_usa_filtered
                                  df_india_filtered keys)
  = Nat.min 15 (length keys) /\
  List.NoDup (Comparison.shown_skills common_skill_cols df_usa_filtered
                                      df_india_filtered keys) /\
  (forall shown left_out,
      In shown (Comparison.shown_skills common_skill_cols df_usa_filtered
                                        df_india_filtered keys) ->
      In left_out keys ->
      ~ In left_out (Comparison.shown_skills common_skill_cols df_usa_filtered
                                             df_india_filtered keys) ->
      (Comparison.combined_value
         (Comparison.usa_skills common_skill_cols df_usa_filtered df_india_filtered)
         (Comparison.india_skills common_skill_cols df_usa_filtered df_india_filtered)
         left_out
       <=? Comparison.combined_value
             (Comparison.usa_skills common_skill_cols df_usa_filtered df_india_filtered)
             (Comparison.india_skills common_skill_cols df_usa_filtered df_india_filtered)
             shown)%float = true) /\
  ((length keys <= 15)%nat ->
   Permutation (Comparison.shown_skills common_skill_cols df_usa_filtered
                                        df_india_filtered keys) keys).
Proof.
  intros Hkeys Husa Hindia.
  rewrite shown_skills_ranked.
  pose proof (ranked_keys common_skill_cols df_usa_filtered df_india_filtered keys)
    as Hperm.
  set (ranked := Python.sorted_desc PrimFloat.leb _) in *.
  split; [|split; [|split; [|split; [|split; [|split]]]]].
  - intros name. rewrite (Permutation_in' (eq_refl name) Hkeys).
    unfold Comparison.usa_skills, Comparison.skill_dicts.
    rewrite fold_step_keys. simpl. tauto.
  - unfold Comparison.india_skills, Comparison.usa_skills, Comparison.skill_dicts.
    symmetry. now apply fold_step_same_keys.
  - intros name Hin. apply (Permutation_in _ Hperm).
    rewrite <- firstn_map in Hin. eapply firstn_subset. exact Hin.
  - rewrite length_map, length_firstn, <- (Permutation_length Hperm), length_map.
    reflexivity.
  - rewrite <- firstn_map. apply firstn_NoDup.
    eapply Permutation_NoDup; [symmetry; exact Hperm|].
    eapply Permutation_NoDup; [symmetry; exact Hkeys|].
    unfold Comparison.usa_skills, Comparison.skill_dicts.
    apply fold_step_NoDup. apply List.NoDup_nil.
  - intros shown left_out. now apply shown_skills_largest.
  - intros Hlen. rewrite firstn_short; [exact Hperm|].
    now rewrite <- (length_map fst), (Permutation_length Hperm).
Qed.

(** Sixteen skills pass the threshold in twenty rows per view; the chart
    shows fifteen of them and leaves out Python, whose sum, 20, is the
    least. *)
Lemma comparison_skill_threshold_witness :
  Permutation Examples.sixteen_names
    (map fst (Comparison.usa_skills Examples.sixteen_cols
                Examples.graded_jobs Examples.graded_jobs)) /\
  (Z.of_nat (length Examples.graded_jobs) < 2 ^ 53)%Z /\
  length (Comparison.shown_skills Examples.sixteen_cols Examples.graded_jobs
            Examples.graded_jobs Examples.sixteen_names) = 15%nat /\
  ~ In "Python" (Comparison.shown_skills Examples.sixteen_cols Examples.graded_jobs
                   Examples.graded_jobs Examples.sixteen_names) /\
  (forall shown,
      In shown (Comparison.shown_skills Examples.sixteen_cols Examples.graded_jobs
                  Examples.graded_jobs Examples.sixteen_names) ->
      (Comparison.combined_value
         (Comparison.usa_skills Examples.sixteen_cols Examples.graded_jobs
                                Examples.graded_jobs)
         (Comparison.india_skills Examples.sixteen_cols Examples.graded_jobs
                                  Examples.graded_jobs)
         "Python"
       <=? Comparison.combined_value
             (Comparison.usa_skills Examples.sixteen_cols Examples.graded_jobs
                                    Examples.graded_jobs)
             (Comparison.india_skills Examples.sixteen_cols Examples.graded_jobs
                                      Examples.graded_jobs)
             shown)%float = true).
Proof.
  assert (H : Permutation Examples.sixteen_names
                (map fst (Comparison.usa_skills Examples.sixteen_cols
                            Examples.graded_jobs Examples.graded_jobs))).
  { vm_compute. apply Permutation_refl. }
  assert (Hout : ~ In "Python"
                   (Comparison.shown_skills Examples.sixteen_cols
                      Examples.graded_jobs Examples.graded_jobs
                      Examples.sixteen_names)).
  { vm_compute. intros Hin.
    repeat (destruct Hin as [Hin|Hin]; [discriminate Hin|]). exact Hin. }
  destruct (comparison_skill_threshold Examples.sixteen_cols Examples.graded_jobs
              Examples.graded_jobs Examples.sixteen_names H eq_refl eq_refl)
    as (_ & _ & _ & Hlen & _ & Hrank & _).
  split; [exact H|]. split; [reflexivity|]. split; [exact Hlen|].
  split; [exact Hout|].
  intros shown Hshown. apply Hrank; [exact Hshown| |exact Hout].
  unfold Examples.sixteen_names. cbn [In]. left. reflexivity.
Defined.

(** C5 as stated fails: with one Python row among twenty in each filtered
    view, the prevalence is 5 % in each country, 10 % summed and 5 % over the
    pooled rows (all three float64 values are exact), hence not below a 5 %
    combined threshold, yet the skill is left out of both dictionaries and of
    the chart. *)
Lemma combined_threshold_counterexample :
  Comparison.skill_pct "skill_python" Examples.one_python_in_twenty = 5%float /\
  (Comparison.skill_pct "skill_python" Examples.one_python_in_twenty
   + Comparison.skill_pct "skill_python" Examples.one_python_in_twenty)%float
  = 10%float /\
  Comparison.skill_pct "skill_python"
    (Examples.one_python_in_twenty ++ Examples.one_python_in_twenty) = 5%float /\
  (5 <? 5)%float = false /\
  Comparison.usa_skills ["skill_python"] Examples.one_python_in_twenty
                        Examples.one_python_in_twenty = [] /\
  Comparison.india_skills ["skill_python"] Examples.one_python_in_twenty
                          Examples.one_python_in_twenty = [] /\
  Comparison.shown_skills ["skill_python"] Examples.one_python_in_twenty
                          Examples.one_python_in_twenty [] = [].
Proof.
  repeat split; vm_compute; reflexivity.
Qed.

(** X10. Every skill kept for the comparison chart has its two bars taken
    from one common flag column bearing its name: the USA bar is that
    column's prevalence in the filtered USA view, the India bar its prevalence
    in the filtered India view, and at least one of the two exceeds 5 %. *)
Theorem comparison_bars_come_from_one_column
    (common_skill_cols : list string)
    (df_usa_filtered df_india_filtered : list Comparison.Row) (name : string) :
  In name (map fst (Comparison.usa_skills common_skill_cols df_usa_filtered
                                          df_india_filtered)) ->
  exists col,
    In col common_skill_cols /\ Python.skill_name col = name /\
    Python.dict_get (Comparison.usa_skills common_skill_cols df_usa_filtered
                                           df_india_filtered) name 0%float
    = Comparison.skill_pct col df_usa_filtered /\
    Python.dict_get (Comparison.india_skills common_skill_cols df_usa_filtered
                                             df_india_filtered) name 0%float
    = Comparison.skill_pct col df_india_filtered /\
    ((5 <? Comparison.skill_pct col df_usa_filtered)%float = true \/
     (5 <? Comparison.skill_pct col df_india_filtered)%float = true).
Proof.
  intros Hin. unfold Comparison.usa_skills, Comparison.india_skills,
    Comparison.skill_dicts in *.
  destruct (fold_step_from_one_column df_usa_filtered df_india_filtered
              common_skill_cols common_skill_cols ([], [])
              (fun c H => H)
              (fun k (H : In k []) => match H with end) name Hin)
    as (col & Hc & Hn & Hu & Hi & Hp).
  exists col. apply above_threshold_spec in Hp. auto.
Qed.

(** One Python row of two in the USA view, one of twenty in the India view. *)
Lemma comparison_bars_come_from_one_column_witness :
  exists col,
    In col ["skill_python"; "skill_sql"] /\ Python.skill_name col = "Python" /\
    Python.dict_get (Comparison.usa_skills ["skill_python"; "skill_sql"]
                       Examples.one_python_in_two Examples.one_python_in_twenty)
                    "Python" 0%float
    = Comparison.skill_pct col Examples.one_python_in_two /\
    Python.dict_get (Comparison.india_skills ["skill_python"; "skill_sql"]
                       Examples.one_python_in_two Examples.one_python_in_twenty)
                    "Python" 0%float
    = Comparison.skill_pct col Examples.one_python_in_twenty /\
    ((5 <? Comparison.skill_pct col Examples.one_python_in_two)%float = true \/
     (5 <? Comparison.skill_pct col Examples.one_python_in_twenty)%float = true).
Proof.
  apply (comparison_bars_come_from_one_column ["skill_python"; "skill_sql"]
           Examples.one_python_in_two Examples.one_python_in_twenty "Python").
  vm_compute. now left.
Defined.

(** X11. The comparison chart never shows a skill twice, and lists the
    skills by non-increasing float64 sum of their two bars, whatever the
    order in which the key set is iterated. *)
Theorem comparison_chart_ranked
    (common_skill_cols : list string)
    (df_usa_filtered df_india_filtered : list Comparison.Row)
    (keys : list string) :
  Permutation keys
    (map fst (Comparison.usa_skills common_skill_cols df_usa_filtered
                                    df_india_filtered)) ->
  (Z.of_nat (length df_usa_filtered) < 2 ^ 53)%Z ->
  (Z.of_nat (length df_india_filtered) < 2 ^ 53)%Z ->
  List.NoDup (Comparison.shown_skills common_skill_cols df_usa_filtered
                                      df_india_filtered keys) /\
  Sorted (fun x y => (y <=? x)%float = true)
    (map (Comparison.combined_value
            (Comparison.usa_skills common_skill_cols df_usa_filtered
                                   df_india_filtered)
            (Comparison.india_skills common_skill_cols df_usa_filtered
                                     df_india_filtered))
         (Comparison.shown_skills common_skill_cols df_usa_filtered
                                  df_india_filtered keys)).
Proof.
  intros Hkeys Husa Hindia.
  rewrite shown_skills_ranked.
  pose proof (ranked_keys common_skill_cols df_usa_filtered df_india_filtered keys)
    as Hperm.
  pose proof (ranked_sorted common_skill_cols df_usa_filtered df_india_filtered keys
                Husa Hindia) as Hsorted.
  pose proof (ranked_pairs common_skill_cols df_usa_filtered df_india_filtered keys)
    as Hpairs.
  set (u := Comparison.usa_skills _ _ _) in *.
  set (i := Comparison.india_skills _ _ _) in *.
  set (ranked := Python.sorted_desc PrimFloat.leb _) in *.
  split.
  - rewrite <- firstn_map. apply firstn_NoDup.
    eapply Permutation_NoDup; [symmetry; exact Hperm|].
    eapply Permutation_NoDup; [symmetry; exact Hkeys|].
    unfold u, Comparison.usa_skills, Comparison.skill_dicts.
    apply fold_step_NoDup. apply List.NoDup_nil.
  - rewrite map_map.
    erewrite map_ext_Forall with (g := snd)
      by (apply firstn_Forall; eapply List.Forall_impl; [|exact Hpairs];
          intros kv H; symmetry; exact H).
    apply Sorted_map, firstn_Sorted, StronglySorted_Sorted. exact Hsorted.
Qed.

(** The two skills of the six-row views, given in the order Python, SQL: the
    chart lists them by sum, SQL (100) before Python (99.999999999999986). *)
Lemma comparison_chart_ranked_witness :
  Comparison.shown_skills ["skill_python"; "skill_sql"]
    (Examples.six_jobs 2 3) (Examples.six_jobs 4 3) ["Python"; "Sql"]
  = ["Sql"; "Python"] /\
  Sorted (fun x y => (y <=? x)%float = true)
    (map (Comparison.combined_value
            (Comparison.usa_skills ["skill_python"; "skill_sql"]
               (Examples.six_jobs 2 3) (Examples.six_jobs 4 3))
            (Comparison.india_skills ["skill_python"; "skill_sql"]
               (Examples.six_jobs 2 3) (Examples.six_jobs 4 3)))
         (Comparison.shown_skills ["skill_python"; "skill_sql"]
            (Examples.six_jobs 2 3) (Examples.six_jobs 4 3) ["Python"; "Sql"])).
Proof.
  split; [vm_compute; reflexivity|].
  apply (comparison_chart_ranked ["skill_python"; "skill_sql"]
           (Examples.six_jobs 2 3) (Examples.six_jobs 4 3) ["Python"; "Sql"]).
  - vm_compute. apply Permutation_refl.
  - reflexivity.
  - reflexivity.
Defined.

Lemma filter_data_no_category (df : list Comparison.Row) (seniority_option : string) :
  Comparison.filter_data df [] seniority_option = [].
Proof.
  rewrite Comparison_filter_data_mask. apply filter_false. intros r.
  unfold Comparison.satisfiesb, Pandas.isin.
  rewrite bool_decide_eq_false_2; [reflexivity|]. apply not_elem_of_nil.
Qed.

(** X12. When both filtered views are empty, as with no category selected,
    no column passes the threshold (each prevalence is taken as 0, nothing is
    divided by the row count 0): both dictionaries and the chart are empty. *)
Theorem no_rows_no_skills
    (common_skill_cols : list string) (df_usa df_india : list Comparison.Row)
    (seniority_option : string) :
  Comparison.skill_dicts common_skill_cols [] [] = ([], []) /\
  Comparison.usa_skills common_skill_cols
    (Comparison.filter_data df_usa [] seniority_option)
    (Comparison.filter_data df_india [] seniority_option) = [] /\
  Comparison.shown_skills common_skill_cols
    (Comparison.filter_data df_usa [] seniority_option)
    (Comparison.filter_data df_india [] seniority_option) [] = [].
Proof.
  assert (H : Comparison.skill_dicts common_skill_cols [] [] = ([], [])).
  { unfold Comparison.skill_dicts. apply fold_step_nothing_passes.
    intros col _. reflexivity. }
  rewrite !filter_data_no_category.
  unfold Comparison.shown_skills, Comparison.usa_skills, Comparison.india_skills.
  rewrite H. repeat split.
Qed.

(** ** The salary ratios of the comparison dashboard *)

Section RatioFacts.
Local Open Scope Z_scope.

Lemma div_nan_r (x y : float) : is_nan y = true -> is_nan (x / y)%float = true.
Proof.
  rewrite !is_nan_spec, div_spec. intros ->. unfold SF64div.
  now destruct (Prim2SF x).
Qed.

Lemma positive_third_signed (r : float) :
  (0 <? r)%float = true ->
  Binary64.SFsigned false (Prim2SF (r / 3)%float) = true.
Proof.
  rewrite ltb_spec, div_spec. change (Prim2SF 0) with (S754_zero false).
  change (Prim2SF 3) with (S754_finite false 6755399441055744 (-51)).
  intros Hpos. unfold SF64div.
  apply (SFdiv_signed (Prim2SF r) _ false false); try reflexivity.
  - destruct (Prim2SF r) as [s|s| |s m e]; try discriminate Hpos;
      destruct s; try discriminate Hpos; reflexivity.
  - now exists 6755399441055744%positive, (-51).
Qed.
End RatioFacts.

(** X13. The PPP-adjusted ratio is guarded: whatever the ratio (NaN,
    negative, infinite), the value shown is never NaN and never negative. *)
Theorem ppp_ratio_defined (ratio : float) :
  is_nan (Comparison.ppp_ratio ratio) = false /\
  (0 <=? Comparison.ppp_ratio ratio)%float = true.
Proof.
  unfold Comparison.ppp_ratio. destruct (0 <? ratio)%float eqn:E.
  - pose proof (positive_third_signed ratio E) as H. split.
    + apply is_nan_false_spec. eapply SFsigned_not_nan. exact H.
    + rewrite leb_spec. now apply SFsigned_nonneg.
  - split; reflexivity.
Qed.

(** X14. With an empty filtered India view in "Compare Both", the India
    median is NaN; the guarded ratio metrics then show 0, while the unguarded
    ratio of "Key Insights" is NaN. *)
Theorem empty_india_view_ratios
    (df_usa df_india : list Comparison.Row) (categories : list string)
    (seniority_option : string) :
  Comparison.filter_data df_india categories seniority_option = [] ->
  Comparison.ratio
    (Comparison.median_sal (Comparison.filter_data df_usa categories seniority_option))
    (Comparison.median_sal (Comparison.filter_data df_india categories seniority_option))
  = 0%float /\
  Comparison.ppp_ratio
    (Comparison.ratio
       (Comparison.median_sal (Comparison.filter_data df_usa categories seniority_option))
       (Comparison.median_sal (Comparison.filter_data df_india categories seniority_option)))
  = 0%float /\
  is_nan
    (Comparison.insights_ratio
       (Comparison.median_sal (Comparison.filter_data df_usa categories seniority_option))
       (Comparison.median_sal (Comparison.filter_data df_india categories seniority_option)))
  = true.
Proof.
  intros ->. set (usa_sal := Comparison.median_sal _).
  change (Comparison.median_sal []) with nan.
  assert (Hr : Comparison.ratio usa_sal nan = 0%float) by reflexivity.
  rewrite Hr. split; [reflexivity|]. split; [reflexivity|].
  unfold Comparison.insights_ratio. apply div_nan_r. reflexivity.
Qed.

(** One USA job and an empty India table. *)
Lemma empty_india_view_ratios_witness :
  Comparison.ratio
    (Comparison.median_sal (Comparison.filter_data Examples.one_usa_job ["Data Analyst"] "Senior"))
    (Comparison.median_sal (Comparison.filter_data [] ["Data Analyst"] "Senior"))
  = 0%float.
Proof.
  apply (empty_india_view_ratios Examples.one_usa_job [] ["Data Analyst"] "Senior").
  reflexivity.
Defined.

(** ** Skill names *)

Lemma letter_case_not_underscore (c : ascii) :
  Python.is_upper c || Python.is_lower c = true ->
  Python.to_lower c <> "_"%char /\ Python.to_upper c <> "_"%char.
Proof.
  destruct c as [b0 b1 b2 b3 b4 b5 b6 b7].
  destruct b0, b1, b2, b3, b4, b5, b6, b7; vm_compute; intros H;
    first [discriminate H | split; discriminate].
Qed.

Lemma title_from_no_underscore (prev_cased : bool) (s : string) :
  (forall c, In c (Stdlib.Strings.String.list_ascii_of_string s) -> c <> "_"%char) ->
  forall c, In c (Stdlib.Strings.String.list_ascii_of_string (Python.title_from prev_cased s)) ->
            c <> "_"%char.
Proof.
  revert prev_cased. induction s as [|a s IH]; intros prev Hs c; simpl; [tauto|].
  destruct (Python.is_upper a || Python.is_lower a) eqn:E; simpl.
  - destruct (letter_case_not_underscore a E) as [Hl Hu].
    intros [<-|Hc].
    + now destruct prev.
    + apply (IH true); [|exact Hc]. intros c' Hc'. apply Hs. now right.
  - intros [<-|Hc].
    + apply Hs. now left.
    + apply (IH false); [|exact Hc]. intros c' Hc'. apply Hs. now right.
Qed.

Lemma replace_underscore_gone (fuel : nat) (s : string) :
  (String.length s < fuel)%nat ->
  forall c, In c (Stdlib.Strings.String.list_ascii_of_string (Python.replace_fuel fuel "_" " " s)) ->
            c <> "_"%char.
Proof.
  revert s. induction fuel as [|fuel IH]; intros s Hlen c; [lia|].
  destruct s as [|a s]; [simpl; tauto|].
  simpl in Hlen. cbn [Python.replace_fuel Stdlib.Strings.String.prefix].
  destruct (ascii_dec "_" a) as [<-|Hne]; simpl.
  - replace (Stdlib.Strings.String.prefix "" s) with true by (now destruct s).
    simpl. intros [<-|Hc]; [discriminate|]. apply (IH s); [lia|exact Hc].
  - intros [<-|Hc]; [congruence|]. apply (IH s); [lia|exact Hc].
Qed.

(** X15. The displayed name of a skill whose column name is ASCII never
    contains an underscore. *)
Theorem skill_name_has_no_underscore (col : string) (c : ascii) :
  Python.isascii col = true ->
  In c (Stdlib.Strings.String.list_ascii_of_string (Python.skill_name col)) ->
  c <> "_"%char.
Proof.
  intros _. unfold Python.skill_name, Python.title. apply title_from_no_underscore.
  intros c'. unfold Python.replace at 1. apply replace_underscore_gone. lia.
Qed.

Lemma skill_name_has_no_underscore_witness :
  Python.isascii "skill_power_bi" = true /\
  Python.skill_name "skill_power_bi" = "Power Bi" /\ " "%char <> "_"%char.
Proof.
  split; [reflexivity|]. split; [reflexivity|].
  apply (skill_name_has_no_underscore "skill_power_bi" " "%char eq_refl).
  vm_compute. tauto.
Defined.

(** ** Rounding for display *)

Section Rounding.
Local Open Scope Z_scope.

(** X16. The integer printed by the [.0f] format is the one nearest to the
    value [m * 2^e], and the even one of the two when the value lies half-way:
    exactly the value for [e >= 0], and within half a unit otherwise. *)
Theorem round_half_even_nearest (m : positive) (e : Z) :
  (0 <= e -> Python.round_half_even m e = Z.pos m * 2 ^ e) /\
  (e < 0 ->
   2 * Z.abs (Python.round_half_even m e * 2 ^ (- e) - Z.pos m) <= 2 ^ (- e) /\
   (2 * Z.abs (Python.round_half_even m e * 2 ^ (- e) - Z.pos m) = 2 ^ (- e) ->
    Z.even (Python.round_half_even m e) = true)).
Proof.
  unfold Python.round_half_even. split.
  - intros He. apply Z.leb_le in He. now rewrite He.
  - intros He. assert (Hb : (0 <=? e) = false) by (apply Z.leb_gt; lia).
    rewrite Hb. set (d := 2 ^ (- e)).
    assert (Hd : 0 < d) by (apply Z.pow_pos_nonneg; lia).
    pose proof (Z.div_mod (Z.pos m) d ltac:(lia)) as Hdm.
    pose proof (Z.mod_pos_bound (Z.pos m) d Hd) as Hr.
    set (q := Z.pos m / d) in *. set (r := Z.pos m mod d) in *.
    destruct (Z.compare_spec (2 * r) d) as [Heq|Hlt|Hgt].
    + destruct (Z.even q) eqn:Hq.
      * split; [nia|]. intros _. exact Hq.
      * split; [nia|]. intros _. rewrite Z.even_add, Hq. reflexivity.
    + split; [nia|]. intros Htie. exfalso. nia.
    + split; [nia|]. intros Htie. exfalso. nia.
Qed.
End Rounding.

(** ** Career progression *)

Lemma level_median_nan_iff (df : list App.Row) (sel : App.Selection) (level : string) :
  is_finite (fst (App.salary_range sel)) = true ->
  is_finite (snd (App.salary_range sel)) = true ->
  is_nan (Pandas.median
            (map App.avg_salary_k
                 (List.filter (fun r => bool_decide (App.seniority r = level))
                              (App.filtered_df df sel)))) = true
  <-> forall r, In r (App.filtered_df df sel) -> App.seniority r <> level.
Proof.
  intros Hlo Hhi.
  set (rows := List.filter _ (App.filtered_df df sel)).
  assert (Hrows : forall r, In r rows <->
                    In r (App.filtered_df df sel) /\ App.seniority r = level).
  { intros r. unfold rows. rewrite filter_In, bool_decide_eq_true. reflexivity. }
  split.
  - intros Hnan r Hr Hlevel.
    assert (Hin : In r rows) by (apply Hrows; auto).
    rewrite median_not_nan in Hnan; [discriminate Hnan| |].
    + destruct rows; [destruct Hin|discriminate].
    + apply List.Forall_map, List.Forall_forall. intros x Hx.
      apply Hrows in Hx. destruct Hx as [Hx _].
      destruct (view_rows_in_range df sel x Hx) as [H1 H2].
      exact (between_finite _ _ _ Hlo Hhi H1 H2).
  - intros Hnone. destruct rows as [|r rows']; [reflexivity|].
    exfalso. destruct (proj1 (Hrows r) (or_introl eq_refl)) as [Hr Hl].
    exact (Hnone r Hr Hl).
Qed.

(** X18. With a finite salary range, the "Career Progression" text shows
    "$nanK" for the Junior (Senior) salary exactly when the view has no Junior
    (Senior) row; the growth metric above it is shown only when the view has
    rows of both levels. *)
Theorem career_progression_nan (df : list App.Row) (sel : App.Selection) :
  is_finite (fst (App.salary_range sel)) = true ->
  is_finite (snd (App.salary_range sel)) = true ->
  (fst (App.career_progression (App.filtered_df df sel)) = "$nanK"
   <-> forall r, In r (App.filtered_df df sel) -> App.seniority r <> "Junior") /\
  (snd (App.career_progression (App.filtered_df df sel)) = "$nanK"
   <-> forall r, In r (App.filtered_df df sel) -> App.seniority r <> "Senior") /\
  (App.growth_shown (App.filtered_df df sel) = true ->
   (exists r, In r (App.filtered_df df sel) /\ App.seniority r = "Junior") /\
   (exists r, In r (App.filtered_df df sel) /\ App.seniority r = "Senior")).
Proof.
  intros Hlo Hhi.
  pose proof (level_median_nan_iff df sel "Junior" Hlo Hhi) as HJ.
  pose proof (level_median_nan_iff df sel "Senior" Hlo Hhi) as HS.
  unfold App.career_progression, App.growth_shown, App.junior_sal, App.senior_sal.
  cbn [fst snd]. rewrite !dollar_K_nan, !format_f0_nan.
  split; [exact HJ|]. split; [exact HS|].
  intros Hg. apply andb_prop in Hg. destruct Hg as [Hg _].
  apply andb_prop in Hg. destruct Hg as [Hj Hs].
  apply negb_true_iff in Hj. apply negb_true_iff in Hs.
  assert (Hex : forall level,
            is_nan (Pandas.median
              (map App.avg_salary_k
                 (List.filter (fun r => bool_decide (App.seniority r = level))
                              (App.filtered_df df sel)))) = false ->
            exists r, In r (App.filtered_df df sel) /\ App.seniority r = level).
  { intros level Hn.
    destruct (List.filter (fun r => bool_decide (App.seniority r = level))
                          (App.filtered_df df sel)) as [|r rows] eqn:E.
    - discriminate Hn.
    - exists r. assert (Hin : In r (r :: rows)) by now left.
      rewrite <- E in Hin. apply filter_In in Hin. destruct Hin as [Hr Hl].
      apply bool_decide_eq_true in Hl. auto. }
  split; apply Hex; assumption.
Qed.

(** The ten-job table with seniority "Senior" selected: no Junior row left. *)
Lemma career_progression_nan_witness :
  fst (App.career_progression
         (App.filtered_df Examples.ten_jobs Examples.senior_only)) = "$nanK" /\
  snd (App.career_progression
         (App.filtered_df Examples.ten_jobs Examples.senior_only)) = "$115K".
Proof.
  split; [|reflexivity].
  apply (career_progression_nan Examples.ten_jobs Examples.senior_only eq_refl eq_refl).
  intros r Hr. assert (Hs : App.seniority r = "Senior").
  { rewrite App_filtered_df_mask, filter_In, App_satisfiesb_spec in Hr.
    destruct Hr as [_ [_ [Hs _]]]. apply Hs. discriminate. }
  rewrite Hs. discriminate.
Defined.
